(** * Letterboxd for Obsidian: the diary merge and the entry renderer

    A shallow embedding of the plug-in's [sync] command (the newest
    [main.ts] of the repository): the renderer [printOut] with
    [starParser], the front-matter writer [objToFrontmatter], the
    callback handed to [vault.process] that merges freshly rendered
    entries into the diary note, and the command itself over an explicit
    vault state; further the file picker's Tab handler, the loading of
    the settings, and the merge of the first versions.

    JavaScript strings are modelled by [string] (byte sequences; the
    star glyphs are their UTF-8 bytes), arrays by [list], [Set] by
    [gset string], the vault's files by [gmap string string]. *)

From Stdlib Require Import Ascii String QArith Qround Sorted.
From stdpp Require Import gmap strings list pretty.

Close Scope Q_scope.

(** ** JavaScript string and array primitives used by the plug-in *)

Module JS.

Definition LF : ascii := "010"%char.
Definition CR : ascii := "013"%char.
(** The one-character strings ["\n"] and ["\r"]. *)
Definition nl : string := String LF "".
Definition cr : string := String CR "".

(** [s.split(sep)] for a one-character separator: never empty, the
    empty string gives one empty field. *)
Fixpoint split (sep : ascii) (s : string) : list string :=
  match s with
  | EmptyString => [EmptyString]
  | String c rest =>
      if decide (c = sep) then EmptyString :: split sep rest
      else match split sep rest with
           | [] => [String c EmptyString]
           | field :: fields => String c field :: fields
           end
  end.

(** [arr.join(sep)]. *)
Fixpoint join (sep : string) (arr : list string) : string :=
  match arr with
  | [] => EmptyString
  | [x] => x
  | x :: rest => x +:+ sep +:+ join sep rest
  end.

(** [s.startsWith(p)]. *)
Definition startsWith (p s : string) : bool := String.prefix p s.

(** [s.endsWith(p)]. *)
Definition endsWith (p s : string) : bool :=
  String.prefix (String.rev p) (String.rev s).

(** [s.includes(needle)]; Obsidian adds it as [String.prototype.contains]. *)
Fixpoint contains (needle s : string) : bool :=
  String.prefix needle s ||
  match s with
  | EmptyString => false
  | String _ rest => contains needle rest
  end.

(** The white space and line terminators of the language that are not
    ASCII, by their UTF-8 bytes: U+00A0 in two bytes, and in three bytes
    U+1680, U+2000 to U+200A, U+2028, U+2029, U+202F, U+205F, U+3000 and
    U+FEFF.  The ASCII ones (tab, line feed, vertical tab, form feed,
    carriage return, space) are [Ascii.is_space]. *)
Definition spaces2 : list (ascii * ascii) :=
  [("194", "160")]%char.

Definition spaces3 : list (ascii * ascii * ascii) :=
  [("225", "154", "128");
   ("226", "128", "128"); ("226", "128", "129"); ("226", "128", "130");
   ("226", "128", "131"); ("226", "128", "132"); ("226", "128", "133");
   ("226", "128", "134"); ("226", "128", "135"); ("226", "128", "136");
   ("226", "128", "137"); ("226", "128", "138");
   ("226", "128", "168"); ("226", "128", "169"); ("226", "128", "175");
   ("226", "129", "159"); ("227", "128", "128");
   ("239", "187", "191")]%char.

(** Dropping the white space a string starts with, for the two- and
    three-byte white space given by [sp2] and [sp3]. *)
Fixpoint trimWith (sp2 : list (ascii * ascii))
    (sp3 : list (ascii * ascii * ascii)) (s : string) : string :=
  match s with
  | String a rest =>
      if Ascii.is_space a then trimWith sp2 sp3 rest
      else
        match rest with
        | String b rest2 =>
            if bool_decide ((a, b) ∈ sp2) then trimWith sp2 sp3 rest2
            else
              match rest2 with
              | String c rest3 =>
                  if bool_decide ((a, b, c) ∈ sp3)
                  then trimWith sp2 sp3 rest3 else s
              | EmptyString => s
              end
        | EmptyString => s
        end
  | EmptyString => EmptyString
  end.

(** [s.trimStart()]. *)
Definition trimStart (s : string) : string := trimWith spaces2 spaces3 s.

(** [s.trimEnd()]: the same from the end, where the bytes of a white
    space come in reverse. *)
Definition trimEnd (s : string) : string :=
  String.rev
    (trimWith (map (fun w => (w.2, w.1)) spaces2)
              (map (fun w => (w.2, w.1.2, w.1.1)) spaces3)
              (String.rev s)).

(** [s.trim()]. *)
Definition trim (s : string) : string := trimEnd (trimStart s).

(** [s.repeat(n)] for [n >= 0]. *)
Fixpoint repeat (s : string) (n : nat) : string :=
  match n with
  | O => EmptyString
  | S k => s +:+ repeat s k
  end.

(** Truthiness of a string: the empty string is falsy. *)
Definition truthy (s : string) : bool :=
  match s with EmptyString => false | String _ _ => true end.

End JS.

Import JS.

(** ** Front matter *)

(** A value of the front-matter object that Obsidian's
    [processFrontMatter] hands to its callback.  [objToFrontmatter] only
    looks at [Array.isArray] and at the template-literal conversion of the
    value (or of each array element), so a value is represented by these. *)
Inductive fmvalue : Type :=
  | Scalar (text : string)
  | Items (texts : list string).

(** The object itself, in the enumeration order of [for (const key in obj)]. *)
Abbreviation frontmatter := (list (string * fmvalue)).

Definition objToFrontmatter (obj : frontmatter) : string :=
  let yamlString := "---" +:+ nl in
  let yamlString :=
    fold_left (fun yamlString entry =>
      match snd entry with
      | Items texts =>
          fold_left (fun yamlString value =>
                       yamlString +:+ ("  - " +:+ value +:+ nl))
                    texts (yamlString +:+ (fst entry +:+ ":" +:+ nl))
      | Scalar text =>
          yamlString +:+ (fst entry +:+ ": " +:+ text +:+ nl)
      end) obj yamlString in
  yamlString +:+ ("---" +:+ nl).

(** The [processFrontMatter] callback of [sync]: [frontMatter] stays
    [''] unless the object has a key. *)
Definition frontMatterOf (data : frontmatter) : string :=
  match data with
  | [] => EmptyString
  | _ :: _ => objToFrontmatter data
  end.

(** ** The merge: the callback handed to [vault.process] *)

(** The [while] loop that shifts lines off [diaryContentsArr] until the
    second ['---'] has been removed, or until the array is empty. *)
Fixpoint shiftFrontmatter (count : nat) (diaryContentsArr : list string)
  : list string :=
  match diaryContentsArr with
  | [] => []
  | firstElement :: rest =>
      if decide (firstElement = "---") then
        if decide (S count = 2) then rest
        else shiftFrontmatter (S count) rest
      else shiftFrontmatter count rest
  end.

(** [diaryContentsArr] as it stands after the front-matter loop. *)
Definition diaryContentsArr (frontMatter data : string) : list string :=
  let arr := split LF data in
  if truthy frontMatter then shiftFrontmatter 0 arr else arr.

Definition diaryContentsSet (arr : list string) : gset string :=
  list_to_set arr.

Definition newEntries (diaryMdArr arr : list string) : list string :=
  filter (fun entry => entry ∉ diaryContentsSet arr) diaryMdArr.

Definition finalEntries (sort : string) (diaryMdArr arr : list string)
  : list string :=
  if decide (sort = "Old") then arr ++ newEntries diaryMdArr arr
  else newEntries diaryMdArr arr ++ arr.

Definition processCallback (frontMatter sort : string)
    (diaryMdArr : list string) (data : string) : string :=
  let arr := diaryContentsArr frontMatter data in
  let final := finalEntries sort diaryMdArr arr in
  if truthy frontMatter then frontMatter +:+ join nl final
  else join nl final.

(** ** The renderer *)

Inductive calloutStyle : Type := List | ListReview | Callout | CalloutPoster.

Record LetterboxdSettings : Type := {
  username : string;
  dateFormat : string;
  path : string;
  sort : string;
  callout : calloutStyle;
  stars : Z;
  addReferenceId : bool;
}.

(** What [printOut] reads of the element built from [item.description]:
    the [src] of the first [img], if there is one, and the [textContent]
    of every [p], in document order. *)
Record Description : Type := {
  imgSrc : option string;
  paragraphs : list string;
}.

(** One item of the feed, with the fields that [sync] reads.  A JavaScript
    number is modelled by a rational. *)
Record RSSEntry : Type := {
  link : string;
  guid : string;
  pubDate : string;
  watchedDate : string;
  filmTitle : string;
  memberRating : option Q;
  description : Description;
}.

(** The functions of the host (Obsidian, the DOM, moment, the JavaScript
    engine) that the plug-in calls and does not define. *)
Class Host : Type := {
  (** [decodeHtmlEntities], through a [textarea] element *)
  decodeHtmlEntities : string -> string;
  (** [moment(date).format(pattern)] *)
  momentFormat : string -> string -> string;
  (** the conversion of a number inside a template literal *)
  numberToString : Q -> string;
  (** [new Date(pubDate).getTime()] *)
  getTime : string -> Z;
  (** the longest string the engine makes: [String.prototype.repeat]
      throws a [RangeError] beyond it *)
  maxStringLength : Z;
  normalizePath : string -> string;
  (** [requestUrl(url)] followed by [XMLParser.parse]: the items of the
      channel in the parsed feed, or nothing when the request or the
      parse fails.  The parser gives [jObj.rss.channel.item] as an array
      only from two items on: for one item it is that item, for none it
      is [undefined]. *)
  requestItems : string -> option (list RSSEntry);
  (** the object that [processFrontMatter] reads off a file's contents *)
  parseFrontMatter : string -> frontmatter;
}.

Definition star_filled : string := "★".
Definition star_emoji : string := "⭐".
Definition half : string := "½".

(** [rating % 1] is truthy exactly when the rating is not a whole number. *)
Definition hasFraction (rating : Q) : bool :=
  negb (Qeq_bool (inject_Z (Qfloor rating)) rating).

(** ['g'.repeat(Math.floor(rating)) + (rating % 1 ? '½' : '')] for one
    of the two glyphs, each one UTF-16 unit long; [repeat] throws a
    [RangeError] ([None]) on a negative count and on a count that takes
    the result beyond the engine's longest string. *)
Definition glyphs `{Host} (glyph : string) (rating : Q) : option string :=
  if decide (Qfloor rating < 0 \/ maxStringLength < Qfloor rating)%Z
  then None
  else Some (repeat glyph (Z.to_nat (Qfloor rating))
             +:+ (if hasFraction rating then half else "")).

Section Renderer.
Context `{Host}.

Definition starParser (rating : option Q) (star : Z) : option string :=
  match rating with
  | None => Some ""
  | Some rating =>
      match star with
      | 1%Z => g ← glyphs star_filled rating; Some ("(" +:+ g +:+ ")")
      | 2%Z => g ← glyphs star_emoji rating; Some ("(" +:+ g +:+ ")")
      | _ => Some ("(" +:+ numberToString rating +:+ " stars)")
      end
  end.

(** The paragraph texts that pass [text && text.trim() !== ""], joined. *)
Definition joinedParagraphs (d : Description) : string :=
  join (cr +:+ " > " +:+ cr +:+ " > ")
       (List.filter (fun text => truthy text && truthy (trim text))
                    (paragraphs d)).

(** [reviewText] after the ['Watched on'] test; [None] is [null]. *)
Definition reviewTextOf (d : Description) : option string :=
  let reviewText := joinedParagraphs d in
  if contains "Watched on" reviewText then None else Some reviewText.

(** Truthiness of a [string | null]. *)
Definition truthyOpt (s : option string) : bool :=
  match s with Some s => truthy s | None => false end.

Definition textOf (s : option string) : string := default "" s.

Definition referenceOf (settings : LetterboxdSettings) (item : RSSEntry)
  : string :=
  if addReferenceId settings
  then " ^letterboxd" +:+ default "undefined" (split "-" (guid item) !! 2)
  else "".

Definition watchedDateOf (settings : LetterboxdSettings) (item : RSSEntry)
  : string :=
  if truthy (dateFormat settings)
  then momentFormat (watchedDate item) (dateFormat settings)
  else watchedDate item.

Definition printOut (settings : LetterboxdSettings) (item : RSSEntry)
  : option string :=
  let img := imgSrc (description item) in
  let reviewText := reviewTextOf (description item) in
  let filmTitle := decodeHtmlEntities (filmTitle item) in
  let watchedDate := watchedDateOf settings item in
  stars ← starParser (memberRating item) (stars settings);
  let reference := referenceOf settings item in
  let linked := "[" +:+ filmTitle +:+ "](" +:+ link item +:+ ")" in
  let heading :=
    if bool_decide (memberRating item <> None) || truthyOpt reviewText
    then "Review: " else "Watched: " in
  Some match callout settings with
  | List =>
      "- " +:+ (if truthy stars then "Reviewed " +:+ linked +:+ " " +:+ stars
                else "Watched " +:+ linked)
      +:+ " on [[" +:+ watchedDate +:+ "]]"
  | ListReview =>
      "- " +:+ (if truthyOpt reviewText then "Reviewed " else "Watched ")
      +:+ " " +:+ linked +:+ " " +:+ stars
      +:+ " on [[" +:+ watchedDate +:+ "]] "
      +:+ (if truthyOpt reviewText
           then cr +:+ " >" +:+ textOf reviewText +:+ nl else "")
  | Callout =>
      "> [!letterboxd]+ " +:+ heading +:+ " " +:+ linked +:+ " " +:+ stars
      +:+ " - [[" +:+ watchedDate +:+ "]] " +:+ cr +:+ "> "
      +:+ (if truthyOpt reviewText then textOf reviewText else "")
      +:+ reference +:+ nl
  | CalloutPoster =>
      "> [!letterboxd]+ " +:+ heading +:+ " " +:+ linked +:+ " " +:+ stars
      +:+ " - [[" +:+ watchedDate +:+ "]] " +:+ cr +:+ "> "
      +:+ (if truthyOpt reviewText
           then if truthyOpt img
                then "![" +:+ filmTitle +:+ "|200](" +:+ textOf img +:+ ") "
                     +:+ cr +:+ "> " +:+ textOf reviewText
                else textOf reviewText
           else "")
      +:+ reference +:+ nl
  end.

End Renderer.

(** ** The [sync] command over an explicit vault *)

(** The part of the world the command touches: the vault's files and
    folders, and the URLs requested so far. *)
Record World : Type := {
  files : gmap string string;
  folders : gset string;
  requests : list string;
}.

(** How the command's [async] callback ends: it throws (its promise is
    rejected with the message), or it returns after starting the request
    whose continuation does the rest. *)
Inductive outcome : Type :=
  | Threw (message : string)
  | Returned.

Definition vault_createFolder (folder : string) (w : World) : World :=
  {| files := files w; folders := {[folder]} ∪ folders w;
     requests := requests w |}.

(** [vault.create] and the write that ends [vault.process].  Whether the
    host accepts a path whose folder is missing is not modelled: the
    folders record what [createFolder] was asked to create. *)
Definition vault_write (filename contents : string) (w : World) : World :=
  {| files := <[filename := contents]> (files w); folders := folders w;
     requests := requests w |}.

Definition requested (url : string) (w : World) : World :=
  {| files := files w; folders := folders w;
     requests := requests w ++ [url] |}.

(** [pathArray] after [pop]: the folder to create, if the guard
    [pathArray.length > 1] lets it through. *)
Definition folderToCreate (path : string) : option string :=
  let pathArray := removelast (split "/" path) in
  if decide (1 < length pathArray) then Some (join "/" pathArray) else None.

Section Command.
Context `{Host}.

(** [items.sort((a, b) => ...)] on the publication times: a stable
    insertion, ascending for ['Old'] and descending otherwise. *)
Definition sortsBefore (sort : string) (a b : RSSEntry) : bool :=
  if decide (sort = "Old")
  then bool_decide (getTime (pubDate a) - getTime (pubDate b) ≤ 0)%Z
  else bool_decide (getTime (pubDate b) - getTime (pubDate a) ≤ 0)%Z.

Fixpoint insertItem (sort : string) (x : RSSEntry) (sorted : list RSSEntry)
  : list RSSEntry :=
  match sorted with
  | [] => [x]
  | y :: rest =>
      if sortsBefore sort y x then y :: insertItem sort x rest
      else x :: sorted
  end.

Definition sortItems (sort : string) (items : list RSSEntry)
  : list RSSEntry :=
  fold_left (fun sorted x => insertItem sort x sorted) items [].

Definition filenameOf (settings : LetterboxdSettings) : string :=
  normalizePath (if endsWith ".md" (path settings) then path settings
                 else path settings +:+ ".md").

(** What the continuation of the request writes, given the rendered
    entries: the branch on [getFileByPath(filename)].  The two callbacks
    of the second branch run in the order their calls are written, both
    on the contents the note has then. *)
Definition writeDiary (settings : LetterboxdSettings)
    (diaryMdArr : list string) (w : World) : World :=
  let filename := filenameOf settings in
  match files w !! filename with
  | None =>
      let w := match folderToCreate (path settings) with
               | Some folder => vault_createFolder folder w
               | None => w
               end in
      vault_write filename (join nl diaryMdArr) w
  | Some data =>
      let frontMatter := frontMatterOf (parseFrontMatter data) in
      vault_write filename
        (processCallback frontMatter (sort settings) diaryMdArr data) w
  end.

Definition sync (settings : LetterboxdSettings) (w : World)
  : outcome * World :=
  if negb (truthy (username settings))
  then (Threw "Cannot get data for blank username", w)
  else
    let url := "https://letterboxd.com/" +:+ username settings +:+ "/rss/" in
    let w := requested url w in
    match requestItems url with
    | None => (Returned, w)
    | Some items =>
        (* fewer than two items: [item] is no array and [.sort] throws *)
        if decide (length items < 2) then (Returned, w)
        else
          match mapM (printOut settings)
                     (sortItems (sort settings) items) with
          | None => (Returned, w)
          | Some diaryMdArr => (Returned, writeDiary settings diaryMdArr w)
          end
    end.

End Command.

(** The renderer of the earlier [sync], before [printOut]: one line per
    item, ['Gave'] with the rating or ['Watched'] without. *)
Definition earlierLine `{Host} (settings : LetterboxdSettings)
    (item : RSSEntry) : string :=
  let title := decodeHtmlEntities (filmTitle item) in
  let watchedDate := watchedDateOf settings item in
  match memberRating item with
  | Some rating =>
      "- Gave [" +:+ numberToString rating +:+ " stars to " +:+ title
      +:+ "](" +:+ link item +:+ ") on [[" +:+ watchedDate +:+ "]]"
  | None =>
      "- Watched [" +:+ title +:+ "](" +:+ link item +:+ ") on [["
      +:+ watchedDate +:+ "]]"
  end.

(** ** Worked examples *)

(** Whole numbers and halves as JavaScript prints them. *)
Definition showRating (rating : Q) : string :=
  pretty (Qfloor rating) +:+ (if hasFraction rating then ".5" else "").

(** A host for the examples: titles without entities, paths already
    normal, whole and half ratings, one publication time for all items
    (the sort keeps the feed's order), the string limit of a 64-bit V8,
    the feed given by [items], and the front matter given by [keys]. *)
Definition exampleHost (items : list RSSEntry) (keys : string -> frontmatter)
  : Host :=
  {| decodeHtmlEntities := fun s => s;
     momentFormat := fun date pattern => date;
     numberToString := showRating;
     getTime := fun s => 0%Z;
     maxStringLength := 536870888;
     normalizePath := fun p => p;
     requestItems := fun url => Some items;
     parseFrontMatter := keys |}.

Definition noKeys : string -> frontmatter := fun data => [].

Definition emptyWorld : World :=
  {| files := ∅; folders := ∅; requests := [] |}.

Definition exampleSettings (username path : string) (callout : calloutStyle)
  : LetterboxdSettings :=
  {| username := username; dateFormat := ""; path := path; sort := "Old";
     callout := callout; stars := 0; addReferenceId := false |}.

(** The item of the source's own example, with a rating and no review. *)
Definition ahsoka (rating : option Q) (paragraphs : list string) : RSSEntry :=
  {| link := "https://letterboxd.com/fleker/film/ahsoka/";
     guid := "letterboxd-review-568742403";
     pubDate := "Thu, 4 Apr 2024 17:28:09 +1300";
     watchedDate := "2024-04-04";
     filmTitle := "Ahsoka";
     memberRating := rating;
     description := {| imgSrc := None; paragraphs := paragraphs |} |}.

Definition ahsokaLink : string := "https://letterboxd.com/fleker/film/ahsoka/".

Definition watchedNotice : string := "Watched on Thursday April 4, 2024.".

(** The callout written for the rated item without a review. *)
Definition ahsokaCallout : string :=
  "> [!letterboxd]+ Review:  [Ahsoka](" +:+ ahsokaLink
  +:+ ") (4 stars) - [[2024-04-04]] " +:+ cr +:+ "> " +:+ nl.

(** A second item of the example feed, from the README's list. *)
Definition scavengers : RSSEntry :=
  {| link := "https://letterboxd.com/fleker/film/scavengers-reign/";
     guid := "letterboxd-review-556240014";
     pubDate := "Wed, 20 Mar 2024 17:28:09 +1300";
     watchedDate := "2024-03-20";
     filmTitle := "Scavengers Reign";
     memberRating := Some 5%Q;
     description := {| imgSrc := None; paragraphs := [] |} |}.

(** The callout written for it. *)
Definition scavengersCallout : string :=
  "> [!letterboxd]+ Review:  [Scavengers Reign]"
  +:+ "(https://letterboxd.com/fleker/film/scavengers-reign/)"
  +:+ " (5 stars) - [[2024-03-20]] " +:+ cr +:+ "> " +:+ nl.

(** The note that one run writes for the feed of the two items in the
    callout style. *)
Definition twoCallouts : string :=
  ahsokaCallout +:+ nl +:+ scavengersCallout.

(** ** The specification's reading of the review text *)

(** The paragraph texts joined, leaving out each paragraph that is a
    "watched on" notice. *)
Definition spec_reviewText (d : Description) : string :=
  join (cr +:+ " > " +:+ cr +:+ " > ")
       (List.filter (fun text => truthy text && truthy (trim text)
                                 && negb (contains "Watched on" text))
                    (paragraphs d)).

(** ** Auxiliary notions for the statements *)

(** A string without a line feed. *)
Definition noLF (s : string) : Prop := contains nl s = false.

(** How often a string occurs in an array. *)
Abbreviation occurrences l x := (count_occ String.eq_dec l x).

(** The lines written for one key. *)
Definition entryLines (entry : string * fmvalue) : list string :=
  match snd entry with
  | Items texts =>
      (fst entry +:+ ":") :: map (fun value => "  - " +:+ value) texts
  | Scalar text => [fst entry +:+ ": " +:+ text]
  end.

Definition unlines (lines : list string) : string :=
  fold_right (fun line rest => line +:+ nl +:+ rest) "" lines.

(** Keys and values that hold no line feed: each key then gives whole
    lines of the block. *)
Definition oneLiners (obj : frontmatter) : Prop :=
  Forall (fun entry =>
            noLF (fst entry) /\
            match snd entry with
            | Scalar text => noLF text
            | Items texts => Forall noLF texts
            end) obj.

(** ** The specification's reading of the metadata block *)

(** The lines up to and including the next delimiter, if there is one. *)
Fixpoint spec_throughDelimiter (lines : list string) : option (list string) :=
  match lines with
  | [] => None
  | line :: rest =>
      if decide (line = "---") then Some [line]
      else cons line <$> spec_throughDelimiter rest
  end.

(** The metadata block as the specification delimits it: when the first
    line equals the delimiter and a second delimiter follows, the text from
    the first delimiter through the second. *)
Definition spec_metadataBlock (data : string) : option string :=
  match split LF data with
  | first :: rest =>
      if decide (first = "---")
      then (fun lines => join nl (first :: lines))
             <$> spec_throughDelimiter rest
      else None
  | [] => None
  end.

(** A note whose front matter holds a list in YAML's flow style, and the
    object read off it. *)
Definition flowNote : string :=
  "---" +:+ nl +:+ "tags: [a, b]" +:+ nl +:+ "---" +:+ nl +:+ "L0".
Definition flowObject : frontmatter := [("tags", Items ["a"; "b"])].

(** The object read off a note with the one key [key: v]. *)
Definition crObject : frontmatter := [("key", Scalar "v")].




(** ** White space, as the language defines it *)

(** One white space or line terminator, in its UTF-8 bytes. *)
Inductive spaceWord (sp2 : list (ascii * ascii))
    (sp3 : list (ascii * ascii * ascii)) : string -> Prop :=
  | space_ascii a :
      Ascii.is_space a = true -> spaceWord sp2 sp3 (String a "")
  | space_two a b :
      (a, b) ∈ sp2 -> spaceWord sp2 sp3 (String a (String b ""))
  | space_three a b c :
      (a, b, c) ∈ sp3 ->
      spaceWord sp2 sp3 (String a (String b (String c ""))).

(** A string made of white space only. *)
Inductive spacesOnly (sp2 : list (ascii * ascii))
    (sp3 : list (ascii * ascii * ascii)) : string -> Prop :=
  | spaces_nil : spacesOnly sp2 sp3 ""
  | spaces_cons w s :
      spaceWord sp2 sp3 w -> spacesOnly sp2 sp3 s ->
      spacesOnly sp2 sp3 (w +:+ s).

Definition whiteSpaceOnly (s : string) : Prop := spacesOnly spaces2 spaces3 s.

(** The separator [printOut] joins the paragraphs with. *)
Definition paragraphSeparator : string := cr +:+ " > " +:+ cr +:+ " > ".

(** ** Further parts of the plug-in *)

(** The [Tab] handler of the file picker [FileSelect]: the new value of
    the input box, from the text of the selected suggestion (if one is
    selected) and the current value of the box. *)
Definition tabComplete (selected : option string) (inputValue : string)
  : string :=
  let text :=
    match selected with
    | Some textContent =>
        if truthy textContent then split "/" textContent else []
    | None => []
    end in
  let currentInput := split "/" inputValue in
  let toSlice :=
    if decide (text !! 0 = currentInput !! 0) then length currentInput
    else 1 in
  let toSlice :=
    if decide (0 < length currentInput /\
               text !! (length currentInput - 1)
               = currentInput !! (length currentInput - 1))
    then S toSlice else toSlice in
  join "/" (take toSlice text).

(** [set.add(x)] on a [Set] kept as the array of its elements in
    insertion order, which is the order [[...set]] spreads them in. *)
Definition setAdd (set : list string) (x : string) : list string :=
  if decide (x ∈ set) then set else set ++ [x].

(** [new Set(arr)]. *)
Definition newSet (arr : list string) : list string :=
  fold_left setAdd arr [].

(** The [vault.process] callback of the first versions of [sync]: the
    note's lines and the rendered entries go through one [Set]. *)
Definition firstProcessCallback (diaryMdArr : list string) (data : string)
  : string :=
  let diaryContentsArr := split LF data in
  let diaryContentsSet := newSet diaryContentsArr in
  let diaryContentsSet := fold_left setAdd diaryMdArr diaryContentsSet in
  join nl diaryContentsSet.

(** What [loadData] gives back: the keys that were saved. *)
Record SavedSettings : Type := {
  savedUsername : option string;
  savedDateFormat : option string;
  savedPath : option string;
  savedSort : option string;
  savedCallout : option calloutStyle;
  savedStars : option Z;
  savedAddReferenceId : option bool;
}.

(** [DEFAULT_SETTINGS]; [dailyNoteFormat] is
    [getDailyNoteSettings().format]. *)
Definition DEFAULT_SETTINGS (dailyNoteFormat : option string)
  : LetterboxdSettings :=
  {| username := "";
     dateFormat := default "" dailyNoteFormat;
     path := "Letterboxd Diary";
     sort := "Old";
     callout := List;
     stars := 0;
     addReferenceId := false |}.

(** [loadSettings]: [Object.assign({}, DEFAULT_SETTINGS, loaded)], where
    nothing is loaded on a fresh installation. *)
Definition loadSettings (dailyNoteFormat : option string)
    (loaded : option SavedSettings) : LetterboxdSettings :=
  let defaults := DEFAULT_SETTINGS dailyNoteFormat in
  match loaded with
  | None => defaults
  | Some saved =>
      {| username := default (username defaults) (savedUsername saved);
         dateFormat := default (dateFormat defaults) (savedDateFormat saved);
         path := default (path defaults) (savedPath saved);
         sort := default (sort defaults) (savedSort saved);
         callout := default (callout defaults) (savedCallout saved);
         stars := default (stars defaults) (savedStars saved);
         addReferenceId :=
           default (addReferenceId defaults) (savedAddReferenceId saved) |}
  end.

(** ** Further notions for the statements *)

(** A string in which the character [sep] does not occur. *)
Fixpoint freeOf (sep : ascii) (s : string) : Prop :=
  match s with
  | EmptyString => True
  | String c rest => c <> sep /\ freeOf sep rest
  end.

(** The publication time [sync] sorts an item by. *)
Definition timeOf `{Host} (item : RSSEntry) : Z := getTime (pubDate item).

(** The order [sync] asks of two items that follow each other. *)
Definition inSortOrder `{Host} (sort : string) (a b : RSSEntry) : Prop :=
  if decide (sort = "Old") then (timeOf a <= timeOf b)%Z
  else (timeOf b <= timeOf a)%Z.

(** The URL [sync] requests. *)
Definition feedUrl (settings : LetterboxdSettings) : string :=
  "https://letterboxd.com/" +:+ username settings +:+ "/rss/".

(** The front matter [sync] reads before it merges into the world [w]. *)
Definition frontMatterIn `{Host} (settings : LetterboxdSettings) (w : World)
  : frontmatter :=
  match files w !! filenameOf settings with
  | Some data => parseFrontMatter data
  | None => []
  end.

(** * Properties *)

(** ** Splitting and joining *)

Lemma app_cons c (s t : string) : String c s +:+ t = String c (s +:+ t).
Proof. reflexivity. Qed.

Lemma app_nil_l (t : string) : "" +:+ t = t.
Proof. reflexivity. Qed.

Lemma app_empty_r (s : string) : s +:+ "" = s.
Proof. induction s; [done | rewrite app_cons; by f_equal]. Qed.

Lemma app_assoc_s (a b c : string) : (a +:+ b) +:+ c = a +:+ (b +:+ c).
Proof. induction a; [done | rewrite !app_cons; by f_equal]. Qed.

Ltac string_norm := rewrite ?app_assoc_s, ?app_cons, ?app_nil_l.

Lemma split_nonempty sep s : split sep s <> [].
Proof.
  destruct s as [|c s]; simpl; [done|].
  case_decide; [done|]. by destruct (split sep s).
Qed.

Lemma join_cons sep x rest :
  rest <> [] -> join sep (x :: rest) = x +:+ sep +:+ join sep rest.
Proof. by destruct rest. Qed.

(** Joining what was split on the line feed gives the text back. *)
Lemma join_split s : join nl (split LF s) = s.
Proof.
  induction s as [|c s IH]; simpl; [done|].
  case_decide as Hc.
  - rewrite join_cons by apply split_nonempty.
    rewrite IH. unfold nl. string_norm. by subst.
  - pose proof (split_nonempty LF s) as Hne.
    destruct (split LF s) as [|field fields]; [done|].
    destruct fields as [|f2 fields]; simpl in *; string_norm;
      by rewrite <- IH.
Qed.

Lemma split_app sep a b :
  split sep (a +:+ String sep b) = split sep a ++ split sep b.
Proof.
  induction a as [|c a IH]; string_norm; simpl.
  - by rewrite decide_True.
  - case_decide; [by rewrite IH|].
    rewrite IH. pose proof (split_nonempty sep a).
    by destruct (split sep a).
Qed.

Lemma contains_cons needle c s :
  contains needle (String c s)
  = String.prefix needle (String c s) || contains needle s.
Proof. reflexivity. Qed.

Lemma prefix_empty s : String.prefix "" s = true.
Proof. by destruct s. Qed.

Lemma noLF_cons c s : noLF (String c s) <-> c <> LF /\ noLF s.
Proof.
  unfold noLF, nl. rewrite contains_cons.
  change (String.prefix (String LF "") (String c s))
    with (if ascii_dec LF c then String.prefix "" s else false).
  destruct (ascii_dec LF c) as [<-|Hc].
  - rewrite prefix_empty. split; [done | by intros [? _]].
  - rewrite orb_false_l. split; [|by intros [_ ?]].
    intros Hs. split; [|done]. by intros ->.
Qed.

Lemma noLF_head c s : noLF (String c s) -> c <> LF /\ noLF s.
Proof. apply noLF_cons. Qed.

Lemma split_noLF s : noLF s -> split LF s = [s].
Proof.
  induction s as [|c s IH]; [done|].
  intros [Hc Hs]%noLF_head. simpl. rewrite decide_False by done.
  by rewrite IH.
Qed.

Lemma split_line s rest :
  noLF s -> split LF (s +:+ nl +:+ rest) = s :: split LF rest.
Proof.
  intros Hs. unfold nl. string_norm. by rewrite split_app, split_noLF.
Qed.

(** Entries without a line feed come back one by one from the joined
    text; the empty array comes back as one empty line. *)
Lemma split_join arr :
  Forall noLF arr -> arr <> [] -> split LF (join nl arr) = arr.
Proof.
  induction 1 as [|x rest Hx Hrest IH]; [done|]. intros _.
  destruct rest as [|y rest]; [by apply split_noLF|].
  rewrite join_cons by done. rewrite split_line by done.
  by rewrite IH.
Qed.

Lemma split_lines_noLF s : Forall noLF (split LF s).
Proof.
  induction s as [|c s IH]; simpl; [by constructor|].
  case_decide as Hc; [by constructor|].
  pose proof (split_nonempty LF s).
  destruct (split LF s) as [|field fields]; [done|].
  inversion IH as [|? ? Hf Hfs]; subst. constructor; [|done].
  by apply noLF_cons.
Qed.

(** ** White space and [trim] *)

Lemma rev_app_app_r a c d :
  String.rev_app a (c +:+ d) = String.rev_app a c +:+ d.
Proof.
  revert c. induction a as [|x a IH]; intros c; simpl; [done|].
  by rewrite <- IH.
Qed.

Lemma rev_app_app a b c :
  String.rev_app (a +:+ b) c = String.rev_app b (String.rev_app a c).
Proof.
  revert c. induction a as [|x a IH]; intros c; string_norm; simpl; [done|].
  by rewrite IH.
Qed.

Lemma rev_app_s a b : String.rev (a +:+ b) = String.rev b +:+ String.rev a.
Proof.
  unfold String.rev. rewrite rev_app_app.
  by rewrite <- (app_nil_l (String.rev_app a "")), rev_app_app_r.
Qed.

Lemma rev_cons a s : String.rev (String a s) = String.rev s +:+ String a "".
Proof. exact (rev_app_s (String a "") s). Qed.

Lemma rev_involutive s : String.rev (String.rev s) = s.
Proof.
  induction s as [|a s IH]; [done|].
  by rewrite rev_cons, rev_app_s, IH.
Qed.

Lemma rev_empty s : String.rev s = "" -> s = "".
Proof. intros Hs. by rewrite <- (rev_involutive s), Hs. Qed.

Lemma spacesOnly_word sp2 sp3 w : spaceWord sp2 sp3 w -> spacesOnly sp2 sp3 w.
Proof.
  intros Hw. rewrite <- (app_empty_r w). by constructor; [|constructor].
Qed.

Lemma spacesOnly_app sp2 sp3 a b :
  spacesOnly sp2 sp3 a -> spacesOnly sp2 sp3 b -> spacesOnly sp2 sp3 (a +:+ b).
Proof.
  induction 1 as [|w s Hw Hs IH]; intros Hb; [done|].
  rewrite app_assoc_s. constructor; auto.
Qed.

(** What [trimWith] drops is white space, and it gives back the rest. *)
Lemma trimWith_split sp2 sp3 s :
  exists w, spacesOnly sp2 sp3 w /\ s = w +:+ trimWith sp2 sp3 s.
Proof.
  remember (String.length s) as n eqn:Hn.
  revert s Hn. induction n as [n IH] using lt_wf_ind. intros s ->.
  destruct s as [|a rest]; [exists ""; split; [constructor | done]|].
  simpl. destruct (Ascii.is_space a) eqn:Ha.
  { destruct (IH (String.length rest) ltac:(simpl; lia) rest eq_refl)
      as (w & Hw & Hrest).
    exists (String a "" +:+ w). split.
    - constructor; [by constructor | done].
    - string_norm. by rewrite <- Hrest. }
  destruct rest as [|b rest2]; [exists ""; split; [constructor | done]|].
  destruct (bool_decide ((a, b) ∈ sp2)) eqn:Hab.
  { apply bool_decide_eq_true in Hab.
    destruct (IH (String.length rest2) ltac:(simpl; lia) rest2 eq_refl)
      as (w & Hw & Hrest).
    exists (String a (String b "") +:+ w). split.
    - constructor; [by constructor | done].
    - string_norm. by rewrite <- Hrest. }
  destruct rest2 as [|c rest3]; [exists ""; split; [constructor | done]|].
  destruct (bool_decide ((a, b, c) ∈ sp3)) eqn:Habc.
  { apply bool_decide_eq_true in Habc.
    destruct (IH (String.length rest3) ltac:(simpl; lia) rest3 eq_refl)
      as (w & Hw & Hrest).
    exists (String a (String b (String c "")) +:+ w). split.
    - constructor; [by constructor | done].
    - string_norm. by rewrite <- Hrest. }
  exists "". split; [constructor | done].
Qed.

(** From the start, [trimStart] drops all of a string of white space. *)
Lemma trimStart_spaces s : whiteSpaceOnly s -> trimStart s = "".
Proof.
  unfold whiteSpaceOnly, trimStart.
  induction 1 as [|w s Hw Hs IH]; [done|].
  destruct Hw as [a Ha | a b Hab | a b c Habc]; string_norm.
  - simpl. by rewrite Ha.
  - unfold spaces2 in Hab.
    repeat (apply elem_of_cons in Hab as [Hab|Hab]; [by simplify_eq|]).
    by apply not_elem_of_nil in Hab.
  - unfold spaces3 in Habc.
    repeat (apply elem_of_cons in Habc as [Habc|Habc]; [by simplify_eq|]).
    by apply not_elem_of_nil in Habc.
Qed.

Lemma spaceWord_rev w :
  spaceWord (map (fun w => (w.2, w.1)) spaces2)
            (map (fun w => (w.2, w.1.2, w.1.1)) spaces3) w ->
  spaceWord spaces2 spaces3 (String.rev w).
Proof.
  intros [a Ha | a b Hab | a b c Habc].
  - by constructor.
  - apply list_elem_of_fmap in Hab as ([b' a'] & [= -> ->] & Hin).
    by apply space_two.
  - apply list_elem_of_fmap in Habc as ([[c' b'] a'] & [= -> -> ->] & Hin).
    by apply space_three.
Qed.

Lemma spacesOnly_rev s :
  spacesOnly (map (fun w => (w.2, w.1)) spaces2)
             (map (fun w => (w.2, w.1.2, w.1.1)) spaces3) s ->
  whiteSpaceOnly (String.rev s).
Proof.
  induction 1 as [|w s Hw Hs IH]; [constructor|].
  rewrite rev_app_s. apply spacesOnly_app; [done|].
  by apply spacesOnly_word, spaceWord_rev.
Qed.

(** [trim] leaves nothing exactly of the strings made of white space. *)
Lemma trim_empty_iff s : trim s = "" <-> whiteSpaceOnly s.
Proof.
  split.
  - unfold trim, trimEnd. intros Hs%rev_empty.
    destruct (trimWith_split spaces2 spaces3 s) as (w & Hw & Hsplit).
    destruct (trimWith_split (map (fun w => (w.2, w.1)) spaces2)
                (map (fun w => (w.2, w.1.2, w.1.1)) spaces3)
                (String.rev (trimStart s))) as (w' & Hw' & Hsplit').
    rewrite Hs, app_empty_r in Hsplit'. subst w'.
    apply spacesOnly_rev in Hw'. rewrite rev_involutive in Hw'.
    rewrite Hsplit. by apply spacesOnly_app.
  - intros Hs. unfold trim. by rewrite trimStart_spaces.
Qed.

Lemma nonblank_iff t : truthy t && truthy (trim t) = true <-> trim t <> "".
Proof.
  destruct t as [|a t]; [by split|]. simpl.
  destruct (trim (String a t)); by split.
Qed.

(** ** The merge: order and deduplication *)

Lemma truthy_false s : truthy s = false -> s = "".
Proof. by destruct s. Qed.

(** The contents returned by the callback, whichever way [frontMatter]
    tests: the string [frontMatter], then the final entries joined. *)
Lemma processCallback_eq frontMatter sort diaryMdArr data :
  processCallback frontMatter sort diaryMdArr data
  = frontMatter +:+
    join nl (finalEntries sort diaryMdArr (diaryContentsArr frontMatter data)).
Proof.
  unfold processCallback. destruct (truthy frontMatter) eqn:Ht; [done|].
  by rewrite (truthy_false _ Ht).
Qed.

Lemma elem_of_newEntries diaryMdArr arr x :
  x ∈ newEntries diaryMdArr arr <-> x ∈ diaryMdArr /\ x ∉ arr.
Proof.
  unfold newEntries, diaryContentsSet.
  rewrite list_elem_of_filter, not_elem_of_list_to_set. tauto.
Qed.

Lemma newEntries_sublist diaryMdArr arr :
  newEntries diaryMdArr arr `sublist_of` diaryMdArr.
Proof. apply sublist_filter. Qed.

Lemma occurrences_newEntries_old diaryMdArr arr x :
  x ∈ arr -> occurrences (newEntries diaryMdArr arr) x = 0.
Proof.
  intros Hx. apply count_occ_not_In. rewrite <- list_elem_of_In.
  rewrite elem_of_newEntries. tauto.
Qed.

Lemma occurrences_newEntries_new diaryMdArr arr x :
  x ∉ arr ->
  occurrences (newEntries diaryMdArr arr) x = occurrences diaryMdArr x.
Proof.
  intros Hx. unfold newEntries, diaryContentsSet.
  induction diaryMdArr as [|y rest IH]; [done|].
  rewrite filter_cons. case_decide as Hy.
  - simpl. destruct (String.eq_dec y x); by rewrite IH.
  - simpl. destruct (String.eq_dec y x) as [->|]; [|done].
    exfalso. apply Hx. by apply elem_of_list_to_set in Hy.
Qed.

Lemma occurrences_finalEntries sort diaryMdArr arr x :
  occurrences (finalEntries sort diaryMdArr arr) x
  = occurrences arr x + occurrences (newEntries diaryMdArr arr) x.
Proof.
  unfold finalEntries. case_decide; rewrite count_occ_app; lia.
Qed.










(** C2 -- deduplication.  A line [L] that occurs among the existing body
    lines is not among the entries the merge adds, so the final entries
    hold [L] exactly as often as the body did; the added entries are
    exactly the entries of [diaryMdArr] that are no body line (by string
    equality).  The note ["L0"] merged with [["L0"; "L1"]] under ['Old']
    gives ["L0\nL1"]. *)
Theorem dedup frontMatter sort diaryMdArr data L :
  let arr := diaryContentsArr frontMatter data in
  L ∈ arr ->
  (L ∉ newEntries diaryMdArr arr)
  /\ occurrences (finalEntries sort diaryMdArr arr) L = occurrences arr L
  /\ (forall x, x ∈ newEntries diaryMdArr arr <-> x ∈ diaryMdArr /\ x ∉ arr)
  /\ processCallback frontMatter sort diaryMdArr data
     = frontMatter +:+ join nl (finalEntries sort diaryMdArr arr)
  /\ processCallback "" "Old" ["L0"; "L1"] "L0" = "L0" +:+ nl +:+ "L1".
Proof.
  intros arr HL. split; [|split; [|split; [|split]]].
  - rewrite elem_of_newEntries. tauto.
  - rewrite occurrences_finalEntries, occurrences_newEntries_old by done. lia.
  - intros x. apply elem_of_newEntries.
  - apply processCallback_eq.
  - reflexivity.
Qed.

Lemma dedup_witness :
  occurrences (finalEntries "Old" ["L0"; "L1"] (diaryContentsArr "" "L0")) "L0"
  = occurrences (diaryContentsArr "" "L0") "L0".
Proof.
  exact (proj1 (proj2 (dedup "" "Old" ["L0"; "L1"] "L0" "L0"
                         ltac:(compute_done)))).
Defined.

(** C10 -- no deduplication within the new entries.  A string that is no
    existing body line occurs in the final entries as often as it occurs
    in [diaryMdArr], so twice (or more) when it is there twice (or more);
    the entries that survive the filter keep their order. *)
Theorem newEntries_keep_duplicates frontMatter sort diaryMdArr data s :
  let arr := diaryContentsArr frontMatter data in
  s ∉ arr ->
  2 <= occurrences diaryMdArr s ->
  2 <= occurrences (finalEntries sort diaryMdArr arr) s
  /\ occurrences (finalEntries sort diaryMdArr arr) s
     = occurrences diaryMdArr s
  /\ newEntries diaryMdArr arr `sublist_of` diaryMdArr
  /\ processCallback frontMatter sort diaryMdArr data
     = frontMatter +:+ join nl (finalEntries sort diaryMdArr arr).
Proof.
  intros arr Hs Htwice.
  assert (occurrences (finalEntries sort diaryMdArr arr) s
          = occurrences diaryMdArr s) as Heq.
  { rewrite occurrences_finalEntries, occurrences_newEntries_new by done.
    assert (occurrences arr s = 0) as ->; [|done].
    apply count_occ_not_In. by rewrite <- list_elem_of_In. }
  split; [lia|]. split; [done|].
  split; [apply newEntries_sublist | apply processCallback_eq].
Qed.

Lemma newEntries_keep_duplicates_witness :
  processCallback "" "Old" ["L1"; "L2"; "L1"] "L0"
  = "" +:+ join nl (finalEntries "Old" ["L1"; "L2"; "L1"]
                      (diaryContentsArr "" "L0"))
  /\ 2 <= occurrences (finalEntries "Old" ["L1"; "L2"; "L1"]
                        (diaryContentsArr "" "L0")) "L1".
Proof.
  pose proof (newEntries_keep_duplicates "" "Old" ["L1"; "L2"; "L1"] "L0" "L1"
                ltac:(compute_done) ltac:(vm_compute; lia))
    as (H2 & _ & _ & Hout).
  exact (conj Hout H2).
Defined.

(** ** The front matter that [objToFrontmatter] writes *)

Lemma unlines_app l1 l2 : unlines (l1 ++ l2) = unlines l1 +:+ unlines l2.
Proof.
  induction l1 as [|x l1 IH]; [done|].
  simpl. rewrite IH. by string_norm.
Qed.

Lemma fold_items texts acc :
  fold_left (fun yamlString value => yamlString +:+ ("  - " +:+ value +:+ nl))
            texts acc
  = acc +:+ unlines (map (fun value => "  - " +:+ value) texts).
Proof.
  revert acc. induction texts as [|t texts IH]; intros acc; simpl.
  - by rewrite app_empty_r.
  - rewrite IH. by string_norm.
Qed.

Lemma fold_entries (obj : frontmatter) acc :
  fold_left (fun yamlString entry =>
      match snd entry with
      | Items texts =>
          fold_left (fun yamlString value =>
                       yamlString +:+ ("  - " +:+ value +:+ nl))
                    texts (yamlString +:+ (fst entry +:+ ":" +:+ nl))
      | Scalar text =>
          yamlString +:+ (fst entry +:+ ": " +:+ text +:+ nl)
      end) obj acc
  = acc +:+ unlines (flat_map entryLines obj).
Proof.
  revert acc. induction obj as [|[key value] obj IH]; intros acc; simpl.
  - by rewrite app_empty_r.
  - rewrite IH, unlines_app. unfold entryLines. simpl.
    destruct value as [text|texts]; simpl.
    + by string_norm.
    + rewrite fold_items. by string_norm.
Qed.

Lemma objToFrontmatter_lines obj :
  objToFrontmatter obj
  = "---" +:+ nl +:+ unlines (flat_map entryLines obj) +:+ "---" +:+ nl.
Proof.
  unfold objToFrontmatter. rewrite fold_entries. by rewrite !app_assoc_s.
Qed.

Lemma noLF_app a b : noLF (a +:+ b) <-> noLF a /\ noLF b.
Proof.
  induction a as [|c a IH]; string_norm.
  - split; [by intros ? | by intros [_ ?]].
  - rewrite !noLF_cons, IH. tauto.
Qed.

Lemma noLF_literal_colon : noLF ":" /\ noLF ": " /\ noLF "  - ".
Proof. by vm_compute. Qed.

Lemma entryLines_noLF obj :
  oneLiners obj -> Forall noLF (flat_map entryLines obj).
Proof.
  induction 1 as [|[key value] obj [Hk Hv] _ IH]; simpl; [done|].
  apply Forall_app. split; [|done].
  destruct noLF_literal_colon as (H1 & H2 & H3).
  unfold entryLines. simpl in *. destruct value as [text|texts].
  - constructor; [|done]. rewrite !noLF_app. tauto.
  - constructor; [rewrite noLF_app; tauto|].
    apply Forall_map. eapply Forall_impl; [exact Hv|].
    intros t Ht. simpl. rewrite noLF_app. tauto.
Qed.

Lemma key_colon_not_delimiter key rest : key +:+ String ":" rest <> "---".
Proof.
  destruct key as [|a [|b [|c [|d key]]]]; string_norm; intros Heq;
    by simplify_eq.
Qed.

Lemma entryLines_not_delimiter obj :
  Forall (fun line => line <> "---") (flat_map entryLines obj).
Proof.
  induction obj as [|[key value] obj IH]; simpl; [done|].
  apply Forall_app. split; [|done].
  unfold entryLines. simpl. destruct value as [text|texts].
  - constructor; [|done]. apply key_colon_not_delimiter.
  - constructor; [apply key_colon_not_delimiter|].
    apply Forall_map, Forall_forall. intros t _. simpl. by string_norm.
Qed.

Lemma split_unlines lines rest :
  Forall noLF lines ->
  split LF (unlines lines +:+ rest) = lines ++ split LF rest.
Proof.
  induction 1 as [|x lines Hx _ IH]; [done|].
  simpl. rewrite !app_assoc_s, split_line by done. by rewrite IH.
Qed.

(** The loop, once past the opening ['---']: it drops lines up to and
    including the next ['---']. *)
Lemma shiftFrontmatter_block lines rest :
  Forall (fun line => line <> "---") lines ->
  shiftFrontmatter 1 (lines ++ "---" :: rest) = rest.
Proof.
  induction 1 as [|x lines Hx _ IH]; simpl; [done|].
  by rewrite decide_False.
Qed.

(** Without a second ['---'], the loop runs the array empty. *)
Lemma shiftFrontmatter_unclosed lines :
  "---" ∉ lines -> shiftFrontmatter 1 lines = [].
Proof.
  induction lines as [|x lines IH]; [done|].
  intros [Hx Hl]%not_elem_of_cons. simpl.
  rewrite decide_False by done. by apply IH.
Qed.

(** With a key reported, a note whose first line is the delimiter and
    whose later lines never equal it is consumed whole. *)
Lemma diaryContentsArr_unclosed frontMatter data rest :
  truthy frontMatter = true ->
  split LF data = "---" :: rest -> "---" ∉ rest ->
  diaryContentsArr frontMatter data = [].
Proof.
  intros Hfm Hsplit Hrest. unfold diaryContentsArr.
  rewrite Hfm, Hsplit. simpl. by apply shiftFrontmatter_unclosed.
Qed.

(** On a note that starts with the block [objToFrontmatter] writes, the
    loop removes exactly that block. *)
Lemma diaryContentsArr_block obj body :
  obj <> [] -> oneLiners obj ->
  diaryContentsArr (frontMatterOf obj) (objToFrontmatter obj +:+ body)
  = split LF body.
Proof.
  intros Hobj Hlines. unfold diaryContentsArr.
  assert (truthy (frontMatterOf obj) = true) as ->.
  { destruct obj; [done|]. unfold frontMatterOf.
    by rewrite objToFrontmatter_lines. }
  rewrite objToFrontmatter_lines. rewrite !app_assoc_s.
  rewrite split_line by by vm_compute.
  rewrite split_unlines by by apply entryLines_noLF.
  rewrite split_line by by vm_compute.
  simpl. by rewrite shiftFrontmatter_block by apply entryLines_not_delimiter.
Qed.

(** ** The merge: front matter *)

(** C3, as stated, fails: the block of [flowNote] is not a prefix of the
    merged contents, which carry the block rewritten from the parsed
    keys. *)
Lemma metadata_rewritten :
  spec_metadataBlock flowNote
    = Some ("---" +:+ nl +:+ "tags: [a, b]" +:+ nl +:+ "---")
  /\ startsWith ("---" +:+ nl +:+ "tags: [a, b]" +:+ nl +:+ "---")
       (processCallback (frontMatterOf flowObject) "Old" ["L1"] flowNote)
     = false
  /\ processCallback (frontMatterOf flowObject) "Old" ["L1"] flowNote
     = "---" +:+ nl +:+ "tags:" +:+ nl +:+ "  - a" +:+ nl +:+ "  - b" +:+ nl
       +:+ "---" +:+ nl +:+ "L0" +:+ nl +:+ "L1".
Proof. by vm_compute. Qed.

(** C3, amended -- metadata preservation.  When the front matter has a
    key, the merged contents begin with the block that [objToFrontmatter]
    writes from the parsed keys, whatever the note holds.  When the note
    begins with the block in that very form (keys and values without line
    feeds), the block is byte-identical in the output and first, and the
    body lines after it are the ones merged. *)
Theorem metadata_preserved obj sort diaryMdArr :
  obj <> [] ->
  (forall data,
     processCallback (frontMatterOf obj) sort diaryMdArr data
     = objToFrontmatter obj +:+
       join nl (finalEntries sort diaryMdArr
                  (diaryContentsArr (frontMatterOf obj) data)))
  /\ (oneLiners obj -> forall body,
       processCallback (frontMatterOf obj) sort diaryMdArr
         (objToFrontmatter obj +:+ body)
       = objToFrontmatter obj +:+
         join nl (finalEntries sort diaryMdArr (split LF body))).
Proof.
  intros Hobj.
  assert (frontMatterOf obj = objToFrontmatter obj) as Hfm
    by by destruct obj.
  split.
  - intros data. by rewrite processCallback_eq, Hfm.
  - intros Hlines body.
    rewrite processCallback_eq, diaryContentsArr_block by done.
    by rewrite Hfm.
Qed.

Lemma metadata_preserved_witness :
  processCallback (frontMatterOf crObject) "New" ["L1"]
    (objToFrontmatter crObject +:+ "L0")
  = objToFrontmatter crObject +:+
    join nl (finalEntries "New" ["L1"] (split LF "L0")).
Proof.
  refine (proj2 (metadata_preserved crObject "New" ["L1"] _) _ "L0").
  - discriminate.
  - repeat constructor.
Defined.

(** Scenario C of the specification. *)
Example scenario_C :
  processCallback (frontMatterOf crObject) "New" ["L1"]
    ("---" +:+ nl +:+ "key: v" +:+ nl +:+ "---" +:+ nl +:+ "L0")
  = "---" +:+ nl +:+ "key: v" +:+ nl +:+ "---" +:+ nl +:+ "L1" +:+ nl
    +:+ "L0".
Proof. by vm_compute. Qed.

(** A block without keys is not recognised: its lines are body lines, and
    under a descending sort the new entries are written before it. *)
Example keyless_block_not_first :
  processCallback (frontMatterOf []) "New" ["L1"]
    ("---" +:+ nl +:+ "---" +:+ nl +:+ "L0")
  = "L1" +:+ nl +:+ "---" +:+ nl +:+ "---" +:+ nl +:+ "L0".
Proof. by vm_compute. Qed.




(** ** Running the merge again *)

Lemma shiftFrontmatter_noLF count lines :
  Forall noLF lines -> Forall noLF (shiftFrontmatter count lines).
Proof.
  intros Hl. revert count.
  induction Hl as [|x lines Hx Hl IH]; intros count; simpl; [done|].
  repeat case_decide; auto.
Qed.

Lemma diaryContentsArr_noLF frontMatter data :
  Forall noLF (diaryContentsArr frontMatter data).
Proof.
  unfold diaryContentsArr. destruct (truthy frontMatter).
  - apply shiftFrontmatter_noLF, split_lines_noLF.
  - apply split_lines_noLF.
Qed.

Lemma newEntries_nil diaryMdArr arr :
  (forall x, x ∈ diaryMdArr -> x ∈ arr) -> newEntries diaryMdArr arr = [].
Proof.
  intros Hsub. unfold newEntries, diaryContentsSet.
  induction diaryMdArr as [|x rest IH]; [done|].
  rewrite filter_cons_False.
  - apply IH. intros y Hy. apply Hsub. by right.
  - rewrite not_elem_of_list_to_set. intros Hx. apply Hx, Hsub. by left.
Qed.

Lemma finalEntries_covers sort diaryMdArr arr x :
  x ∈ diaryMdArr -> x ∈ finalEntries sort diaryMdArr arr.
Proof.
  intros Hx. unfold finalEntries.
  destruct (decide (x ∈ arr)) as [Harr|Harr];
    case_decide; apply elem_of_app; rewrite elem_of_newEntries; tauto.
Qed.

Lemma finalEntries_noLF sort diaryMdArr arr :
  Forall noLF diaryMdArr -> Forall noLF arr ->
  Forall noLF (finalEntries sort diaryMdArr arr).
Proof.
  intros Hnew Harr. unfold finalEntries.
  assert (Forall noLF (newEntries diaryMdArr arr)).
  { apply Forall_forall. intros x [Hx _]%elem_of_newEntries.
    rewrite Forall_forall in Hnew. auto. }
  case_decide; apply Forall_app; done.
Qed.

(** The body lines found in a note that the merge itself wrote. *)
Lemma diaryContentsArr_written obj final :
  oneLiners obj ->
  diaryContentsArr (frontMatterOf obj) (frontMatterOf obj +:+ join nl final)
  = split LF (join nl final).
Proof.
  intros Hobj. destruct obj as [|entry obj]; [done|].
  by apply diaryContentsArr_block.
Qed.

(** When no rendered entry holds a line feed (and the front matter is
    made of one-line keys and values), a second merge of the same entries
    leaves the note as the first merge wrote it. *)
Lemma merge_idempotent_one_line_entries obj sort diaryMdArr data :
  oneLiners obj -> Forall noLF diaryMdArr ->
  processCallback (frontMatterOf obj) sort diaryMdArr
    (processCallback (frontMatterOf obj) sort diaryMdArr data)
  = processCallback (frontMatterOf obj) sort diaryMdArr data.
Proof.
  intros Hobj Hnew.
  rewrite (processCallback_eq _ _ _ data).
  set (final := finalEntries sort diaryMdArr
                  (diaryContentsArr (frontMatterOf obj) data)).
  assert (Forall noLF final) as Hfinal
    by (apply finalEntries_noLF; [done | apply diaryContentsArr_noLF]).
  rewrite processCallback_eq, diaryContentsArr_written by done.
  f_equal.
  assert (newEntries diaryMdArr (split LF (join nl final)) = []) as Hnone.
  { apply newEntries_nil. intros x Hx.
    assert (x ∈ final) as Hin by by apply finalEntries_covers.
    rewrite split_join; [done..|].
    intros ->. by apply not_elem_of_nil in Hin. }
  unfold finalEntries at 1. rewrite Hnone, app_nil_r. simpl.
  case_decide; apply join_split.
Qed.

(** The same after the run that created the note: merging one-line
    entries into the note made of them changes nothing. *)
Lemma merge_after_create sort diaryMdArr :
  Forall noLF diaryMdArr ->
  processCallback "" sort diaryMdArr (join nl diaryMdArr)
  = join nl diaryMdArr.
Proof.
  intros Hnew. rewrite processCallback_eq, app_nil_l.
  change (diaryContentsArr "" (join nl diaryMdArr))
    with (split LF (join nl diaryMdArr)).
  assert (newEntries diaryMdArr (split LF (join nl diaryMdArr)) = [])
    as Hnone.
  { apply newEntries_nil. intros x Hx. rewrite split_join; [done..|].
    intros ->. by apply not_elem_of_nil in Hx. }
  unfold finalEntries. rewrite Hnone, app_nil_r. simpl.
  case_decide; apply join_split.
Qed.

(** C1 -- idempotence fails on the callout styles.  Every callout ends in
    a line feed, the note's lines never do, so no callout is found among
    them: for a feed of two items, the second run of [sync] on the note
    written by the first adds the same two callouts again. *)
Theorem callout_sync_not_idempotent :
  let host :=
    exampleHost [ahsoka (Some 4%Q) [watchedNotice]; scavengers] noKeys in
  let settings := exampleSettings "fleker" "Letterboxd Diary" Callout in
  let once := (sync settings emptyWorld).2 in
  let twice := (sync settings once).2 in
  printOut settings (ahsoka (Some 4%Q) [watchedNotice]) = Some ahsokaCallout
  /\ printOut settings scavengers = Some scavengersCallout
  /\ files once !! "Letterboxd Diary.md" = Some twoCallouts
  /\ files twice !! "Letterboxd Diary.md"
     = Some (twoCallouts +:+ nl +:+ twoCallouts)
  /\ processCallback "" "Old" [ahsokaCallout; scavengersCallout] twoCallouts
     = twoCallouts +:+ nl +:+ twoCallouts.
Proof. by vm_compute. Qed.

(** ** The absent note *)

(** When the note does not exist, it is created with the rendered entries
    joined by line feeds. *)
Lemma writeDiary_absent `{Host} settings diaryMdArr w :
  files w !! filenameOf settings = None ->
  files (writeDiary settings diaryMdArr w) !! filenameOf settings
  = Some (join nl diaryMdArr).
Proof.
  intros Habsent. unfold writeDiary. rewrite Habsent.
  destruct (folderToCreate (path settings)); simpl; apply lookup_insert_eq.
Qed.

(** C6 -- the folder of a note one level deep is not created.  For the
    path [Movies/Diary] the array left after [pop] has one element, the
    guard [pathArray.length > 1] fails, and the note is written without
    its folder being created; two levels deep the folder is created. *)
Theorem single_folder_not_created :
  let host := exampleHost [] noKeys in
  let written :=
    writeDiary (exampleSettings "fleker" "Movies/Diary" List)
      ["L1"; "L2"] emptyWorld in
  folderToCreate "Movies/Diary" = None
  /\ folders written = ∅
  /\ files written !! "Movies/Diary.md" = Some ("L1" +:+ nl +:+ "L2")
  /\ folderToCreate "Movies/2024/Diary" = Some "Movies/2024".
Proof. by vm_compute. Qed.

(** ** The command's guard *)

(** C8 -- blank username.  With an empty [username] the command throws
    at once: nothing is requested and the vault is as it was. *)
Theorem blank_username_aborts `{Host} settings w :
  username settings = "" ->
  sync settings w = (Threw "Cannot get data for blank username", w).
Proof. intros Hblank. unfold sync. by rewrite Hblank. Qed.

Lemma blank_username_aborts_witness :
  @sync (exampleHost [ahsoka (Some 4%Q) [watchedNotice]] noKeys)
    (exampleSettings "" "Letterboxd Diary" List) emptyWorld
  = (Threw "Cannot get data for blank username", emptyWorld).
Proof.
  exact (@blank_username_aborts
           (exampleHost [ahsoka (Some 4%Q) [watchedNotice]] noKeys)
           (exampleSettings "" "Letterboxd Diary" List) emptyWorld eq_refl).
Defined.

(** ** The renderer *)

(** A lone paragraph with the notice leaves no review text. *)
Lemma lone_notice_no_review d p :
  paragraphs d = [p] -> contains "Watched on" p = true ->
  truthyOpt (reviewTextOf d) = false.
Proof.
  intros Hp Hnotice. unfold reviewTextOf, joinedParagraphs.
  rewrite Hp. simpl. destruct (truthy p && truthy (trim p)); simpl.
  - by rewrite Hnotice.
  - done.
Qed.

Lemma starParser_rated `{Host} rating star s :
  starParser (Some rating) star = Some s -> truthy s = true.
Proof.
  unfold starParser.
  destruct star as [|[[]|[]|]|]; cbv beta iota; unfold glyphs;
    try case_decide; intros Hs; by simplify_eq/=.
Qed.

(** The joined text, in terms of the paragraphs that [trim] does not
    leave empty. *)
Lemma joinedParagraphs_filter d :
  joinedParagraphs d
  = join paragraphSeparator
         (filter (fun text => trim text <> "") (paragraphs d)).
Proof.
  unfold joinedParagraphs. f_equal.
  induction (paragraphs d) as [|text rest IH]; [done|].
  rewrite filter_cons. simpl.
  destruct (truthy text && truthy (trim text)) eqn:Hkeep.
  - apply nonblank_iff in Hkeep. by rewrite decide_True, IH.
  - rewrite decide_False; [done|]. rewrite <- nonblank_iff. congruence.
Qed.

(** What [printOut] writes for an item without review text: a
    ['Watched'] entry in the list-with-reviews style, and a callout
    headed ['Watched:'] when the rating is absent too, ['Review:'] when
    it is present. *)
Lemma printOut_without_review `{Host} settings item starText :
  let linked :=
    "[" +:+ decodeHtmlEntities (filmTitle item) +:+ "](" +:+ link item
    +:+ ")" in
  let date := watchedDateOf settings item in
  truthyOpt (reviewTextOf (description item)) = false ->
  starParser (memberRating item) (stars settings) = Some starText ->
  (callout settings = ListReview ->
     printOut settings item
     = Some ("- Watched  " +:+ linked +:+ " " +:+ starText
             +:+ " on [[" +:+ date +:+ "]] "))
  /\ (callout settings = Callout \/ callout settings = CalloutPoster ->
        printOut settings item
        = Some ("> [!letterboxd]+ "
                +:+ (if decide (memberRating item = None)
                     then "Watched: " else "Review: ")
                +:+ " " +:+ linked +:+ " " +:+ starText +:+ " - [["
                +:+ date +:+ "]] " +:+ cr +:+ "> "
                +:+ referenceOf settings item +:+ nl)).
Proof.
  intros linked date Hnone Hstars. split.
  - intros Hstyle. unfold printOut. rewrite Hstars, Hstyle.
    by rewrite Hnone.
  - intros Hstyle. unfold printOut. rewrite Hstars. simpl.
    rewrite Hnone, orb_false_r.
    destruct (memberRating item) as [rating|];
      by destruct Hstyle as [-> | ->].
Qed.

(** What [printOut] writes for an item with review text: a ['Reviewed']
    entry followed by the review in the list-with-reviews style, and a
    callout headed ['Review:'] that holds the review, after the poster
    when the poster style finds an image. *)
Lemma printOut_with_review `{Host} settings item starText review :
  let title := decodeHtmlEntities (filmTitle item) in
  let linked := "[" +:+ title +:+ "](" +:+ link item +:+ ")" in
  let date := watchedDateOf settings item in
  reviewTextOf (description item) = Some review ->
  truthy review = true ->
  starParser (memberRating item) (stars settings) = Some starText ->
  (callout settings = ListReview ->
     printOut settings item
     = Some ("- Reviewed  " +:+ linked +:+ " " +:+ starText
             +:+ " on [[" +:+ date +:+ "]] " +:+ cr +:+ " >" +:+ review
             +:+ nl))
  /\ (callout settings = Callout ->
        printOut settings item
        = Some ("> [!letterboxd]+ Review:  " +:+ linked +:+ " " +:+ starText
                +:+ " - [[" +:+ date +:+ "]] " +:+ cr +:+ "> " +:+ review
                +:+ referenceOf settings item +:+ nl))
  /\ (callout settings = CalloutPoster ->
        printOut settings item
        = Some ("> [!letterboxd]+ Review:  " +:+ linked +:+ " " +:+ starText
                +:+ " - [[" +:+ date +:+ "]] " +:+ cr +:+ "> "
                +:+ (if truthyOpt (imgSrc (description item))
                     then "![" +:+ title +:+ "|200]("
                          +:+ textOf (imgSrc (description item)) +:+ ") "
                          +:+ cr +:+ "> " +:+ review
                     else review)
                +:+ referenceOf settings item +:+ nl)).
Proof.
  intros title linked date Hreview Htext Hstars.
  assert (truthyOpt (reviewTextOf (description item)) = true) as Htruthy
    by by rewrite Hreview.
  split; [|split]; intros Hstyle; unfold printOut;
    rewrite Hstars, Hstyle; simpl; rewrite Htruthy, Hreview, ?orb_true_r;
    simpl; subst title linked date;
    try destruct (truthyOpt (imgSrc (description item)));
    by string_norm.
Qed.

(** C7, as stated, fails: a review paragraph next to a notice paragraph
    is dropped with it, and an entry left without review text is still
    rendered as reviewed by the list style when it has a rating. *)
Lemma review_dropped_with_notice :
  let host := exampleHost [] noKeys in
  spec_reviewText
    (description (ahsoka (Some 4%Q) ["Loved it."; watchedNotice]))
    = "Loved it."
  /\ reviewTextOf
       (description (ahsoka (Some 4%Q) ["Loved it."; watchedNotice]))
     = None
  /\ reviewTextOf (description (ahsoka (Some 4%Q) [watchedNotice])) = None
  /\ printOut (exampleSettings "fleker" "Letterboxd Diary" List)
       (ahsoka (Some 4%Q) [watchedNotice])
     = Some ("- Reviewed [Ahsoka](" +:+ ahsokaLink
             +:+ ") (4 stars) on [[2024-04-04]]").
Proof. by vm_compute. Qed.

(** C7, amended -- review text.  [trim] leaves nothing exactly of the
    texts made of white space, and the joined text is the texts of the
    paragraphs that are not of that kind, in their order, joined by the
    separator.  If the joined text contains ['Watched on'] anywhere, all
    of it is discarded, otherwise it is the review text.  An item whose
    only paragraph contains ['Watched on'] has no review text.  Without
    review text the list-with-reviews style writes a ['Watched'] entry
    and no review, and the callout styles a heading that is ['Watched:']
    when the rating is absent too and ['Review:'] when it is present;
    with review text the list-with-reviews style writes a ['Reviewed']
    entry followed by the review, and the callout style a ['Review:']
    callout that holds it. *)
Theorem reviewText_extraction `{Host} settings item :
  let d := description item in
  let joined :=
    join paragraphSeparator
         (filter (fun text => trim text <> "") (paragraphs d)) in
  let linked :=
    "[" +:+ decodeHtmlEntities (filmTitle item) +:+ "](" +:+ link item
    +:+ ")" in
  let date := watchedDateOf settings item in
  (forall text, trim text = "" <-> whiteSpaceOnly text)
  /\ reviewTextOf d
     = (if contains "Watched on" joined then None else Some joined)
  /\ (forall p, paragraphs d = [p] -> contains "Watched on" p = true ->
        truthyOpt (reviewTextOf d) = false)
  /\ (forall starText,
        starParser (memberRating item) (stars settings) = Some starText ->
        (truthyOpt (reviewTextOf d) = false ->
           (callout settings = ListReview ->
              printOut settings item
              = Some ("- Watched  " +:+ linked +:+ " " +:+ starText
                      +:+ " on [[" +:+ date +:+ "]] "))
           /\ (callout settings = Callout
               \/ callout settings = CalloutPoster ->
                 printOut settings item
                 = Some ("> [!letterboxd]+ "
                         +:+ (if decide (memberRating item = None)
                              then "Watched: " else "Review: ")
                         +:+ " " +:+ linked +:+ " " +:+ starText
                         +:+ " - [[" +:+ date +:+ "]] " +:+ cr +:+ "> "
                         +:+ referenceOf settings item +:+ nl)))
        /\ (forall review,
              reviewTextOf d = Some review -> truthy review = true ->
              (callout settings = ListReview ->
                 printOut settings item
                 = Some ("- Reviewed  " +:+ linked +:+ " " +:+ starText
                         +:+ " on [[" +:+ date +:+ "]] " +:+ cr +:+ " >"
                         +:+ review +:+ nl))
              /\ (callout settings = Callout ->
                    printOut settings item
                    = Some ("> [!letterboxd]+ Review:  " +:+ linked +:+ " "
                            +:+ starText +:+ " - [[" +:+ date +:+ "]] "
                            +:+ cr +:+ "> " +:+ review
                            +:+ referenceOf settings item +:+ nl)))).
Proof.
  intros d joined linked date.
  split; [apply trim_empty_iff|]. split; [|split].
  - unfold reviewTextOf. by rewrite joinedParagraphs_filter.
  - intros p. apply lone_notice_no_review.
  - intros starText Hstars. split.
    + intros Hnone. by apply printOut_without_review.
    + intros review Hreview Htext.
      destruct (printOut_with_review settings item starText review
                  Hreview Htext Hstars) as (Hlist & Hcallout & _).
      by split.
Qed.

Lemma reviewText_extraction_witness :
  @printOut (exampleHost [] noKeys)
    (exampleSettings "fleker" "Letterboxd Diary" ListReview)
    (ahsoka None [watchedNotice])
  = Some ("- Watched  " +:+ ("[Ahsoka](" +:+ ahsokaLink +:+ ")")
          +:+ " " +:+ "" +:+ " on [[" +:+ "2024-04-04" +:+ "]] ").
Proof.
  pose proof (@reviewText_extraction (exampleHost [] noKeys)
                (exampleSettings "fleker" "Letterboxd Diary" ListReview)
                (ahsoka None [watchedNotice])) as (_ & _ & Hlone & Hstyle).
  exact (proj1 (proj1 (Hstyle "" eq_refl)
                  (Hlone watchedNotice eq_refl eq_refl))
           eq_refl).
Defined.

(** C9, as stated, fails: an unrated item that has a review is written
    as a ['Reviewed'] entry by the list-with-reviews style. *)
Lemma unrated_review_is_reviewed :
  @printOut (exampleHost [] noKeys)
    (exampleSettings "fleker" "Letterboxd Diary" ListReview)
    (ahsoka None ["Great film."])
  = Some ("- Reviewed  [Ahsoka](" +:+ ahsokaLink
          +:+ ")  on [[2024-04-04]] " +:+ cr +:+ " >Great film." +:+ nl).
Proof. by vm_compute. Qed.

(** C9, amended -- unrated rendering.  For an item without a rating the
    star text is empty.  The list style (like the earlier renderer)
    writes a ['Watched'] line.  The list-with-reviews and callout styles
    write a ['Watched'] entry when the item has no review text either;
    when it has, they write a ['Reviewed'] entry, or a callout headed
    ['Review:'], that holds the review and no stars.  In every case the
    star text is non-empty only if a rating is present, and it is
    non-empty whenever one is. *)
Theorem unrated_rendering `{Host} settings item :
  memberRating item = None ->
  let title := decodeHtmlEntities (filmTitle item) in
  let linked := "[" +:+ title +:+ "](" +:+ link item +:+ ")" in
  let date := watchedDateOf settings item in
  let d := description item in
  starParser (memberRating item) (stars settings) = Some ""
  /\ (callout settings = List ->
        printOut settings item
        = Some ("- Watched " +:+ linked +:+ " on [[" +:+ date +:+ "]]"))
  /\ earlierLine settings item
     = "- Watched " +:+ linked +:+ " on [[" +:+ date +:+ "]]"
  /\ (truthyOpt (reviewTextOf d) = false ->
        (callout settings = ListReview ->
           printOut settings item
           = Some ("- Watched  " +:+ linked +:+ "  on [[" +:+ date
                   +:+ "]] "))
        /\ (callout settings = Callout \/ callout settings = CalloutPoster ->
              printOut settings item
              = Some ("> [!letterboxd]+ Watched:  " +:+ linked +:+ "  - [["
                      +:+ date +:+ "]] " +:+ cr +:+ "> "
                      +:+ referenceOf settings item +:+ nl)))
  /\ (forall review,
        reviewTextOf d = Some review -> truthy review = true ->
        (callout settings = ListReview ->
           printOut settings item
           = Some ("- Reviewed  " +:+ linked +:+ "  on [[" +:+ date
                   +:+ "]] " +:+ cr +:+ " >" +:+ review +:+ nl))
        /\ (callout settings = Callout ->
              printOut settings item
              = Some ("> [!letterboxd]+ Review:  " +:+ linked +:+ "  - [["
                      +:+ date +:+ "]] " +:+ cr +:+ "> " +:+ review
                      +:+ referenceOf settings item +:+ nl))
        /\ (callout settings = CalloutPoster ->
              printOut settings item
              = Some ("> [!letterboxd]+ Review:  " +:+ linked +:+ "  - [["
                      +:+ date +:+ "]] " +:+ cr +:+ "> "
                      +:+ (if truthyOpt (imgSrc d)
                           then "![" +:+ title +:+ "|200]("
                                +:+ textOf (imgSrc d) +:+ ") " +:+ cr
                                +:+ "> " +:+ review
                           else review)
                      +:+ referenceOf settings item +:+ nl)))
  /\ (forall rating star s,
        starParser rating star = Some s ->
        (truthy s = true <-> rating <> None)).
Proof.
  intros Hrating title linked date d.
  assert (starParser (memberRating item) (stars settings) = Some "")
    as Hstars by by rewrite Hrating.
  split; [done|]. split; [|split; [|split; [|split]]].
  - intros Hstyle. unfold printOut. rewrite Hstars, Hstyle. simpl.
    subst title linked date. by string_norm.
  - unfold earlierLine. rewrite Hrating.
    subst title linked date. by string_norm.
  - intros Hnone.
    pose proof (printOut_without_review settings item "" Hnone Hstars)
      as [Hlist Hcallout].
    split; intros Hstyle;
      [rewrite (Hlist Hstyle) | rewrite (Hcallout Hstyle), decide_True by done];
      subst title linked date; by string_norm.
  - intros review Hreview Htext.
    destruct (printOut_with_review settings item "" review Hreview Htext
                Hstars) as (Hlist & Hcallout & Hposter).
    split; [|split]; intros Hstyle;
      [rewrite (Hlist Hstyle) | rewrite (Hcallout Hstyle)
      | rewrite (Hposter Hstyle)];
      subst title linked date d;
      try destruct (truthyOpt (imgSrc (description item)));
      by string_norm.
  - intros rating star s Hs. destruct rating as [rating|].
    + split; [done|]. intros _. by eapply starParser_rated.
    + injection Hs as <-. done.
Qed.

Lemma unrated_rendering_witness :
  @printOut (exampleHost [] noKeys)
    (exampleSettings "fleker" "Letterboxd Diary" ListReview)
    (ahsoka None ["Great film."])
  = Some ("- Reviewed  " +:+ ("[Ahsoka](" +:+ ahsokaLink +:+ ")")
          +:+ "  on [[" +:+ "2024-04-04" +:+ "]] " +:+ cr +:+ " >"
          +:+ "Great film." +:+ nl).
Proof.
  pose proof (@unrated_rendering (exampleHost [] noKeys)
                (exampleSettings "fleker" "Letterboxd Diary" ListReview)
                (ahsoka None ["Great film."]) eq_refl)
    as (_ & _ & _ & _ & Hreview & _).
  exact (proj1 (Hreview "Great film." eq_refl eq_refl) eq_refl).
Defined.

(** * Further properties *)

(** ** Splitting and joining on any separator *)

Lemma join_split_on sep s : join (String sep "") (split sep s) = s.
Proof.
  induction s as [|c s IH]; simpl; [done|].
  case_decide as Hc.
  - rewrite join_cons by apply split_nonempty.
    rewrite IH. string_norm. by subst.
  - pose proof (split_nonempty sep s) as Hne.
    destruct (split sep s) as [|field fields]; [done|].
    destruct fields as [|f2 fields]; simpl in *; string_norm;
      by rewrite <- IH.
Qed.

Lemma split_free sep s : freeOf sep s -> split sep s = [s].
Proof.
  induction s as [|c s IH]; [done|]. intros [Hc Hs]. simpl.
  rewrite decide_False by done. by rewrite IH.
Qed.

Lemma split_fields_free sep s : Forall (freeOf sep) (split sep s).
Proof.
  induction s as [|c s IH]; simpl; [by constructor|].
  case_decide as Hc; [by constructor|].
  pose proof (split_nonempty sep s).
  destruct (split sep s) as [|field fields]; [done|].
  inversion IH; subst. by constructor.
Qed.

Lemma split_field sep s rest :
  freeOf sep s ->
  split sep (s +:+ String sep "" +:+ rest) = s :: split sep rest.
Proof. intros Hs. string_norm. by rewrite split_app, split_free. Qed.

Lemma split_join_on sep arr :
  Forall (freeOf sep) arr -> arr <> [] ->
  split sep (join (String sep "") arr) = arr.
Proof.
  induction 1 as [|x rest Hx Hrest IH]; [done|]. intros _.
  destruct rest as [|y rest]; [by apply split_free|].
  rewrite join_cons by done. rewrite split_field by done.
  by rewrite IH.
Qed.

Lemma join_snoc sep arr x :
  arr <> [] -> join sep (arr ++ [x]) = join sep arr +:+ sep +:+ x.
Proof.
  induction arr as [|y arr IH]; [done|]. intros _.
  destruct arr as [|z arr]; [done|].
  change ((y :: z :: arr) ++ [x]) with (y :: (z :: arr) ++ [x]).
  rewrite join_cons by done. rewrite IH by done.
  rewrite (join_cons _ y (z :: arr)) by done. by rewrite !app_assoc_s.
Qed.

Lemma freeOf_app sep a b : freeOf sep (a +:+ b) <-> freeOf sep a /\ freeOf sep b.
Proof.
  induction a as [|c a IH]; string_norm; simpl; [tauto|].
  rewrite IH. tauto.
Qed.

Lemma noLF_freeOf s : noLF s <-> freeOf LF s.
Proof.
  induction s as [|c s IH]; [done|].
  rewrite noLF_cons, IH. done.
Qed.

(** ** More on the merge *)

Lemma shiftFrontmatter_suffix count lines :
  shiftFrontmatter count lines `suffix_of` lines.
Proof.
  revert count. induction lines as [|x lines IH]; intros count; simpl.
  - done.
  - repeat case_decide; apply suffix_cons_r; auto.
Qed.

(** X1 -- the lines that survive the front-matter loop are the lines of
    the note from some line on: the loop removes leading lines only, and
    leaves the others as they are and in their order. *)
Theorem diaryContentsArr_suffix frontMatter data :
  diaryContentsArr frontMatter data `suffix_of` split LF data.
Proof.
  unfold diaryContentsArr. destruct (truthy frontMatter); [|done].
  apply shiftFrontmatter_suffix.
Qed.

(** X2 -- the block that [objToFrontmatter] writes, line by line: the
    delimiter, then for each key in turn one [key: value] line or a
    [key:] line followed by one [  - item] line per element, then the
    delimiter and the empty line after its line feed. *)
Theorem objToFrontmatter_split obj :
  oneLiners obj ->
  split LF (objToFrontmatter obj)
  = "---" :: flat_map entryLines obj ++ ["---"; ""].
Proof.
  intros Hobj. rewrite objToFrontmatter_lines.
  rewrite split_line by by vm_compute.
  rewrite split_unlines by by apply entryLines_noLF.
  done.
Qed.

Lemma objToFrontmatter_split_witness :
  split LF (objToFrontmatter flowObject)
  = "---" :: flat_map entryLines flowObject ++ ["---"; ""].
Proof.
  apply (objToFrontmatter_split flowObject). repeat constructor.
Defined.

(** X3 -- merging no new entry into a note that begins with the block
    [objToFrontmatter] writes gives the note back unchanged, whatever its
    body holds, lines equal to the delimiter included. *)
Theorem merge_nothing_keeps_note obj sort body :
  obj <> [] -> oneLiners obj ->
  processCallback (frontMatterOf obj) sort []
    (objToFrontmatter obj +:+ body)
  = objToFrontmatter obj +:+ body.
Proof.
  intros Hobj Hlines.
  rewrite processCallback_eq, diaryContentsArr_block by done.
  assert (frontMatterOf obj = objToFrontmatter obj) as -> by by destruct obj.
  f_equal. unfold finalEntries, newEntries. simpl.
  case_decide; rewrite ?app_nil_r; apply join_split.
Qed.

Lemma merge_nothing_keeps_note_witness :
  processCallback (frontMatterOf crObject) "Old" []
    (objToFrontmatter crObject +:+ ("L0" +:+ nl +:+ "---" +:+ nl +:+ "L1"))
  = objToFrontmatter crObject +:+ ("L0" +:+ nl +:+ "---" +:+ nl +:+ "L1").
Proof.
  apply (merge_nothing_keeps_note crObject "Old").
  - discriminate.
  - repeat constructor.
Defined.

Lemma contains_app_r needle a b :
  contains needle b = true -> contains needle (a +:+ b) = true.
Proof.
  intros Hb. induction a as [|c a IH]; [done|].
  rewrite app_cons, contains_cons, IH. apply orb_true_r.
Qed.

Lemma line_feed_not_a_line frontMatter data entry :
  contains nl entry = true -> entry ∉ diaryContentsArr frontMatter data.
Proof.
  intros Hlf Hin.
  pose proof (diaryContentsArr_noLF frontMatter data) as Hlines.
  rewrite Forall_forall in Hlines. specialize (Hlines _ Hin).
  unfold noLF in Hlines. congruence.
Qed.

(** X4 -- an entry that holds a line feed is never recognised in the
    note: every merge adds it, as often as it occurs among the rendered
    entries, whatever the note already holds. *)
Theorem multi_line_entry_always_added frontMatter sort diaryMdArr data entry :
  contains nl entry = true ->
  entry ∈ diaryMdArr ->
  let arr := diaryContentsArr frontMatter data in
  entry ∈ newEntries diaryMdArr arr
  /\ occurrences (finalEntries sort diaryMdArr arr) entry
     = occurrences diaryMdArr entry.
Proof.
  intros Hlf Hin arr.
  assert (entry ∉ arr) as Hnew by by apply line_feed_not_a_line.
  split; [by apply elem_of_newEntries|].
  rewrite occurrences_finalEntries, occurrences_newEntries_new by done.
  assert (occurrences arr entry = 0) as ->; [|done].
  apply count_occ_not_In. by rewrite <- list_elem_of_In.
Qed.

Lemma multi_line_entry_always_added_witness :
  ahsokaCallout ∈ newEntries [ahsokaCallout]
                    (diaryContentsArr "" ahsokaCallout).
Proof.
  refine (proj1 (multi_line_entry_always_added "" "Old" [ahsokaCallout]
                   ahsokaCallout ahsokaCallout _ _)).
  - reflexivity.
  - compute_done.
Defined.

(** X5 -- every entry of the callout styles ends in a line feed, so it
    is one of the entries that every merge adds again. *)
Theorem callout_entries_hold_line_feed `{Host} settings item entry :
  callout settings = Callout \/ callout settings = CalloutPoster ->
  printOut settings item = Some entry ->
  contains nl entry = true
  /\ forall frontMatter data, entry ∉ diaryContentsArr frontMatter data.
Proof.
  intros Hstyle Hentry.
  assert (contains nl entry = true) as Hlf.
  { unfold printOut in Hentry.
    destruct (starParser (memberRating item) (stars settings)) as [s|];
      [|done].
    simpl in Hentry.
    destruct Hstyle as [Hstyle|Hstyle]; rewrite Hstyle in Hentry;
      injection Hentry as <-;
      repeat first [done | apply contains_app_r]. }
  split; [done|]. intros frontMatter data. by apply line_feed_not_a_line.
Qed.

Lemma callout_entries_hold_line_feed_witness :
  contains nl ahsokaCallout = true.
Proof.
  exact (proj1 (@callout_entries_hold_line_feed
                  (exampleHost [] noKeys)
                  (exampleSettings "fleker" "Letterboxd Diary" Callout)
                  (ahsoka (Some 4%Q) [watchedNotice]) ahsokaCallout
                  (or_introl eq_refl) eq_refl)).
Defined.

(** ** The order of the rendered entries *)

Lemma sortsBefore_inSortOrder `{Host} sort a b :
  sortsBefore sort a b = true <-> inSortOrder sort a b.
Proof.
  unfold sortsBefore, inSortOrder, timeOf.
  case_decide; rewrite bool_decide_eq_true; lia.
Qed.

Lemma sortsBefore_total `{Host} sort a b :
  sortsBefore sort a b = false -> inSortOrder sort b a.
Proof.
  unfold sortsBefore, inSortOrder, timeOf.
  case_decide; rewrite bool_decide_eq_false; lia.
Qed.

Lemma insertItem_perm `{Host} sort x sorted :
  insertItem sort x sorted ≡ₚ x :: sorted.
Proof.
  induction sorted as [|y rest IH]; simpl; [done|].
  destruct (sortsBefore sort y x); [|done].
  rewrite IH. apply Permutation_swap.
Qed.

Lemma sortItems_perm `{Host} sort items : sortItems sort items ≡ₚ items.
Proof.
  unfold sortItems.
  assert (forall acc,
            fold_left (fun sorted x => insertItem sort x sorted) items acc
            ≡ₚ acc ++ items) as Hfold.
  { induction items as [|x items IH]; intros acc; simpl.
    - by rewrite app_nil_r.
    - rewrite IH, insertItem_perm. simpl. apply Permutation_middle. }
  apply Hfold.
Qed.

Lemma insertItem_HdRel `{Host} sort y x sorted :
  inSortOrder sort y x -> HdRel (inSortOrder sort) y sorted ->
  HdRel (inSortOrder sort) y (insertItem sort x sorted).
Proof.
  intros Hyx Hhd. destruct sorted as [|z rest]; simpl; [by constructor|].
  destruct (sortsBefore sort z x); constructor; [|done].
  by inversion Hhd.
Qed.

Lemma insertItem_sorted `{Host} sort x sorted :
  Sorted (inSortOrder sort) sorted ->
  Sorted (inSortOrder sort) (insertItem sort x sorted).
Proof.
  induction 1 as [|y rest Hrest IH Hhd]; simpl.
  - by repeat constructor.
  - destruct (sortsBefore sort y x) eqn:Hyx.
    + constructor; [done|]. apply insertItem_HdRel; [|done].
      by apply sortsBefore_inSortOrder.
    + repeat constructor; [done..|]. by apply sortsBefore_total.
Qed.

(** X6 -- the items are rendered in the order of their publication
    times: none is lost or repeated, and under ['Old'] each is no later
    than the next, under any other sort value no earlier. *)
Theorem sortItems_sorted `{Host} sort items :
  sortItems sort items ≡ₚ items
  /\ Sorted (inSortOrder sort) (sortItems sort items).
Proof.
  split; [apply sortItems_perm|].
  unfold sortItems.
  assert (forall acc, Sorted (inSortOrder sort) acc ->
            Sorted (inSortOrder sort)
              (fold_left (fun sorted x => insertItem sort x sorted)
                         items acc)) as Hfold.
  { induction items as [|x items IH]; intros acc Hacc; simpl; [done|].
    by apply IH, insertItem_sorted. }
  apply Hfold. constructor.
Qed.

(** ** More on the renderer *)

Lemma printOut_None `{Host} settings item :
  printOut settings item = None
  <-> starParser (memberRating item) (stars settings) = None.
Proof.
  unfold printOut.
  by destruct (starParser (memberRating item) (stars settings)).
Qed.

(** X7 -- rendering throws for a rated item under one of the two glyph
    styles whenever the floor of its rating is below zero or beyond the
    engine's longest string ([repeat] refuses the count); an unrated
    item, and any item under another star style, never reaches [repeat]
    and renders. *)
Theorem printOut_throws `{Host} settings item :
  (forall rating,
     memberRating item = Some rating ->
     (stars settings = 1 \/ stars settings = 2)%Z ->
     (Qfloor rating < 0 \/ maxStringLength < Qfloor rating)%Z ->
     printOut settings item = None)
  /\ (memberRating item = None
      \/ (stars settings <> 1 /\ stars settings <> 2)%Z ->
      is_Some (printOut settings item)).
Proof.
  split.
  - intros rating Hrating Hstyle Hcount. apply printOut_None.
    rewrite Hrating. unfold starParser, glyphs.
    by destruct Hstyle as [-> | ->]; cbv beta iota; rewrite decide_True.
  - intros Hplain.
    destruct (printOut settings item) as [entry|] eqn:Hentry; [eauto|].
    apply printOut_None in Hentry. unfold starParser in Hentry.
    destruct (memberRating item) as [rating|]; [|done].
    destruct Hplain as [|[H1 H2]]; [done|].
    by destruct (stars settings) as [|[[]|[]|]|].
Qed.

Lemma printOut_throws_witness :
  @printOut (exampleHost [] noKeys)
    {| username := "fleker"; dateFormat := ""; path := "Letterboxd Diary";
       sort := "Old"; callout := List; stars := 1;
       addReferenceId := false |} (ahsoka (Some (-1)%Q) [])
  = None.
Proof.
  refine (proj1 (@printOut_throws (exampleHost [] noKeys)
                   {| username := "fleker"; dateFormat := "";
                      path := "Letterboxd Diary"; sort := "Old";
                      callout := List; stars := 1;
                      addReferenceId := false |}
                   (ahsoka (Some (-1)%Q) []))
            (-1)%Q eq_refl (or_introl eq_refl) _).
  left. reflexivity.
Defined.

(** X8 -- the reference toggle applies to the callouts only: the two list
    styles render an item the same with and without it. *)
Theorem reference_only_on_callouts `{Host}
    user pattern note order style glyph flag flag' item :
  style = List \/ style = ListReview ->
  printOut {| username := user; dateFormat := pattern; path := note;
              sort := order; callout := style; stars := glyph;
              addReferenceId := flag |} item
  = printOut {| username := user; dateFormat := pattern; path := note;
                sort := order; callout := style; stars := glyph;
                addReferenceId := flag' |} item.
Proof. by intros [-> | ->]. Qed.

Lemma reference_only_on_callouts_witness :
  @printOut (exampleHost [] noKeys)
    {| username := "fleker"; dateFormat := ""; path := "Letterboxd Diary";
       sort := "Old"; callout := ListReview; stars := 1;
       addReferenceId := true |} (ahsoka (Some 4%Q) ["Great film."])
  = @printOut (exampleHost [] noKeys)
      {| username := "fleker"; dateFormat := ""; path := "Letterboxd Diary";
         sort := "Old"; callout := ListReview; stars := 1;
         addReferenceId := false |} (ahsoka (Some 4%Q) ["Great film."]).
Proof.
  exact (@reference_only_on_callouts (exampleHost [] noKeys)
           "fleker" "" "Letterboxd Diary" "Old" ListReview 1 true false
           (ahsoka (Some 4%Q) ["Great film."]) (or_intror eq_refl)).
Defined.

(** X9 -- the reference tag is the third hyphen-separated segment of the
    guid, whatever follows a third hyphen being left out. *)
Theorem reference_third_segment settings item a b c :
  addReferenceId settings = true ->
  freeOf "-" a -> freeOf "-" b -> freeOf "-" c ->
  (guid item = a +:+ "-" +:+ b +:+ "-" +:+ c ->
     referenceOf settings item = " ^letterboxd" +:+ c)
  /\ (forall rest,
        guid item = a +:+ "-" +:+ b +:+ "-" +:+ c +:+ "-" +:+ rest ->
        referenceOf settings item = " ^letterboxd" +:+ c).
Proof.
  intros Hflag Ha Hb Hc. unfold referenceOf. rewrite Hflag. split.
  - intros ->. rewrite !split_field by done. by rewrite split_free.
  - intros rest ->. by rewrite !split_field by done.
Qed.

Lemma reference_third_segment_witness :
  referenceOf
    {| username := "fleker"; dateFormat := ""; path := "Letterboxd Diary";
       sort := "Old"; callout := Callout; stars := 0;
       addReferenceId := true |} (ahsoka None [])
  = " ^letterboxd" +:+ "568742403".
Proof.
  refine (proj1 (reference_third_segment
                   {| username := "fleker"; dateFormat := "";
                      path := "Letterboxd Diary"; sort := "Old";
                      callout := Callout; stars := 0;
                      addReferenceId := true |} (ahsoka None [])
                   "letterboxd" "review" "568742403" eq_refl _ _ _)
            eq_refl); by vm_compute.
Defined.

(** X10 -- a guid with fewer than three hyphen-separated segments gives
    the tag [^letterboxdundefined]. *)
Theorem reference_without_third_segment settings item :
  addReferenceId settings = true ->
  length (split "-" (guid item)) <= 2 ->
  referenceOf settings item = " ^letterboxdundefined".
Proof.
  intros Hflag Hshort. unfold referenceOf. rewrite Hflag.
  by rewrite lookup_ge_None_2 by lia.
Qed.

Lemma reference_without_third_segment_witness :
  referenceOf
    {| username := "fleker"; dateFormat := ""; path := "Letterboxd Diary";
       sort := "Old"; callout := Callout; stars := 0;
       addReferenceId := true |}
    {| link := ""; guid := "letterboxd-568742403"; pubDate := "";
       watchedDate := ""; filmTitle := ""; memberRating := None;
       description := {| imgSrc := None; paragraphs := [] |} |}
  = " ^letterboxdundefined".
Proof.
  apply reference_without_third_segment; [reflexivity | vm_compute; lia].
Defined.

Lemma repeat_noLF glyph n : noLF glyph -> noLF (JS.repeat glyph n).
Proof.
  intros Hg. induction n as [|n IH]; simpl; [done|].
  by apply noLF_app.
Qed.

Lemma starParser_noLF `{Host} rating star s :
  (forall r, rating = Some r -> noLF (numberToString r)) ->
  starParser rating star = Some s -> noLF s.
Proof.
  intros Hnum. unfold starParser. destruct rating as [r|].
  - specialize (Hnum r eq_refl).
    destruct star as [|[[]|[]|]|]; cbv beta iota; unfold glyphs;
      try case_decide; intros Hs; simplify_eq/=;
      rewrite !noLF_app; repeat split; try done;
      try (apply repeat_noLF; by vm_compute);
      by destruct (hasFraction r).
  - by intros [= <-].
Qed.

(** X11 -- an entry of the plain list style is one line, provided the
    title, the link, the date and the printed rating hold no line feed. *)
Theorem list_entry_one_line `{Host} settings item entry :
  callout settings = List ->
  noLF (decodeHtmlEntities (filmTitle item)) ->
  noLF (link item) ->
  noLF (watchedDateOf settings item) ->
  (forall r, memberRating item = Some r -> noLF (numberToString r)) ->
  printOut settings item = Some entry ->
  noLF entry.
Proof.
  intros Hstyle Htitle Hlink Hdate Hnum. unfold printOut.
  destruct (starParser (memberRating item) (stars settings)) as [s|] eqn:Hs;
    [|done].
  apply starParser_noLF in Hs; [|done].
  simpl. rewrite Hstyle. intros [= <-].
  destruct (truthy s); rewrite !noLF_app; repeat split; done.
Qed.

Lemma list_entry_one_line_witness :
  noLF ("- Reviewed [Ahsoka](" +:+ ahsokaLink
        +:+ ") (4 stars) on [[2024-04-04]]").
Proof.
  apply (@list_entry_one_line (exampleHost [] noKeys)
           (exampleSettings "fleker" "Letterboxd Diary" List)
           (ahsoka (Some 4%Q) [watchedNotice])); try reflexivity.
  intros r [= <-]. reflexivity.
Defined.

(** ** More on the command *)

Lemma truthy_true s : s <> "" -> truthy s = true.
Proof. by destruct s. Qed.

Lemma writeDiary_other_files `{Host} settings diaryMdArr w f :
  f <> filenameOf settings ->
  files (writeDiary settings diaryMdArr w) !! f = files w !! f.
Proof.
  intros Hf. unfold writeDiary.
  destruct (files w !! filenameOf settings);
    [|destruct (folderToCreate (path settings))]; simpl;
    by rewrite lookup_insert_ne.
Qed.

Lemma writeDiary_folders `{Host} settings diaryMdArr w :
  folders w ⊆ folders (writeDiary settings diaryMdArr w).
Proof.
  unfold writeDiary.
  destruct (files w !! filenameOf settings);
    [|destruct (folderToCreate (path settings))]; simpl; set_solver.
Qed.

(** X12 -- a run of the command touches no file but the diary note, and
    removes no folder. *)
Theorem sync_touches_only_the_note `{Host} settings w f :
  f <> filenameOf settings ->
  files (sync settings w).2 !! f = files w !! f
  /\ folders w ⊆ folders (sync settings w).2.
Proof.
  intros Hf. unfold sync.
  destruct (truthy (username settings)); simpl; [|done].
  destruct (requestItems _) as [items|]; simpl; [|done].
  case_decide; [done|].
  destruct (mapM _ _) as [diaryMdArr|]; simpl; [|done].
  split; [by rewrite writeDiary_other_files by done|].
  etrans; [|apply writeDiary_folders]. done.
Qed.

Lemma sync_touches_only_the_note_witness :
  files (@sync (exampleHost [ahsoka (Some 4%Q) [watchedNotice]; scavengers]
                  noKeys)
           (exampleSettings "fleker" "Letterboxd Diary" List)
           emptyWorld).2 !! "Other.md"
  = files emptyWorld !! "Other.md".
Proof.
  refine (proj1 (@sync_touches_only_the_note
                   (exampleHost
                      [ahsoka (Some 4%Q) [watchedNotice]; scavengers]
                      noKeys)
                   (exampleSettings "fleker" "Letterboxd Diary" List)
                   emptyWorld "Other.md" _)).
  by vm_compute.
Defined.

(** X13 -- with a username set, a run makes one request, to the feed of
    that user, and returns without throwing. *)
Theorem sync_one_request `{Host} settings w :
  username settings <> "" ->
  (sync settings w).1 = Returned
  /\ requests (sync settings w).2 = requests w ++ [feedUrl settings].
Proof.
  intros Huser. unfold sync. rewrite truthy_true by done. simpl.
  fold (feedUrl settings).
  destruct (requestItems _) as [items|]; simpl; [|done].
  case_decide; [done|].
  destruct (mapM _ _) as [diaryMdArr|]; simpl; [|done].
  split; [done|]. unfold writeDiary.
  destruct (files _ !! _); [done|].
  by destruct (folderToCreate (path settings)).
Qed.

Lemma sync_one_request_witness :
  requests (@sync (exampleHost [ahsoka (Some 4%Q) [watchedNotice]; scavengers]
                     noKeys)
              (exampleSettings "fleker" "Letterboxd Diary" List)
              emptyWorld).2
  = requests emptyWorld
    ++ [feedUrl (exampleSettings "fleker" "Letterboxd Diary" List)].
Proof.
  refine (proj2 (@sync_one_request
                   (exampleHost
                      [ahsoka (Some 4%Q) [watchedNotice]; scavengers]
                      noKeys)
                   (exampleSettings "fleker" "Letterboxd Diary" List)
                   emptyWorld _)).
  discriminate.
Defined.

(** X14 -- when the request fails, or when the rendering of one item of
    the feed throws, the run leaves the vault as it was: nothing is
    written for the items that did render. *)
Theorem sync_aborted_run `{Host} settings w :
  username settings <> "" ->
  requestItems (feedUrl settings) = None
  \/ (exists items item,
        requestItems (feedUrl settings) = Some items
        /\ item ∈ items /\ printOut settings item = None) ->
  sync settings w = (Returned, requested (feedUrl settings) w).
Proof.
  intros Huser Hfail. unfold sync. rewrite truthy_true by done. simpl.
  fold (feedUrl settings).
  destruct Hfail as [-> | (items & item & -> & Hitem & Hthrow)]; [done|].
  case_decide; [done|].
  assert (mapM (printOut settings) (sortItems (sort settings) items) = None)
    as ->; [|done].
  apply mapM_None, Exists_exists. exists item. split; [|done].
  by rewrite sortItems_perm.
Qed.

Lemma sync_aborted_run_witness :
  @sync (exampleHost [ahsoka (Some 4%Q) []; ahsoka (Some (-1)%Q) []] noKeys)
    {| username := "fleker"; dateFormat := ""; path := "Letterboxd Diary";
       sort := "Old"; callout := List; stars := 1;
       addReferenceId := false |} emptyWorld
  = (Returned,
     requested "https://letterboxd.com/fleker/rss/" emptyWorld).
Proof.
  apply (@sync_aborted_run
           (exampleHost [ahsoka (Some 4%Q) []; ahsoka (Some (-1)%Q) []]
              noKeys)
           {| username := "fleker"; dateFormat := "";
              path := "Letterboxd Diary"; sort := "Old"; callout := List;
              stars := 1; addReferenceId := false |} emptyWorld).
  - discriminate.
  - right. exists [ahsoka (Some 4%Q) []; ahsoka (Some (-1)%Q) []],
      (ahsoka (Some (-1)%Q) []).
    split; [reflexivity|]. split; [|reflexivity].
    apply list_elem_of_In. right. left. reflexivity.
Defined.

(** X15 -- when the feed has at least two items, every item renders and
    the note exists already, the run replaces the contents of the note by
    the merge of the entries, rendered in the sorted order, into them. *)
Theorem sync_merges_into_note `{Host} settings w items diaryMdArr data :
  username settings <> "" ->
  requestItems (feedUrl settings) = Some items ->
  2 <= length items ->
  mapM (printOut settings) (sortItems (sort settings) items)
    = Some diaryMdArr ->
  files w !! filenameOf settings = Some data ->
  files (sync settings w).2 !! filenameOf settings
  = Some (processCallback (frontMatterOf (parseFrontMatter data))
            (sort settings) diaryMdArr data).
Proof.
  intros Huser Hitems Htwo Hrender Hnote. unfold sync.
  rewrite truthy_true by done. simpl. fold (feedUrl settings).
  rewrite Hitems, decide_False by lia. rewrite Hrender. simpl.
  unfold writeDiary. simpl. rewrite Hnote. simpl.
  apply lookup_insert_eq.
Qed.

Lemma sync_merges_into_note_witness :
  files (@sync (exampleHost [ahsoka (Some 4%Q) [watchedNotice]; scavengers]
                  noKeys)
           (exampleSettings "fleker" "Letterboxd Diary" Callout)
           {| files := {["Letterboxd Diary.md" := "L0"]};
              folders := ∅; requests := [] |}).2
    !! "Letterboxd Diary.md"
  = Some (processCallback "" "Old" [ahsokaCallout; scavengersCallout] "L0").
Proof.
  apply (@sync_merges_into_note
           (exampleHost [ahsoka (Some 4%Q) [watchedNotice]; scavengers]
              noKeys)
           (exampleSettings "fleker" "Letterboxd Diary" Callout)
           {| files := {["Letterboxd Diary.md" := "L0"]};
              folders := ∅; requests := [] |}
           [ahsoka (Some 4%Q) [watchedNotice]; scavengers]
           [ahsokaCallout; scavengersCallout] "L0").
  - discriminate.
  - reflexivity.
  - simpl. lia.
  - reflexivity.
  - reflexivity.
Defined.

Lemma vault_write_twice filename contents w :
  vault_write filename contents (vault_write filename contents w)
  = vault_write filename contents w.
Proof. unfold vault_write. simpl. by rewrite insert_insert_eq. Qed.

(** X16 -- running the write again with the same one-line entries
    changes nothing, neither in the note nor elsewhere in the vault,
    when the front matter is made of one-line keys and values and the
    host reads the same keys off the note that was written. *)
Theorem writeDiary_twice `{Host} settings diaryMdArr w :
  Forall noLF diaryMdArr ->
  oneLiners (frontMatterIn settings w) ->
  frontMatterIn settings (writeDiary settings diaryMdArr w)
    = frontMatterIn settings w ->
  writeDiary settings diaryMdArr (writeDiary settings diaryMdArr w)
  = writeDiary settings diaryMdArr w.
Proof.
  intros Hnew. unfold frontMatterIn.
  unfold writeDiary at 1 3 4.
  destruct (files w !! filenameOf settings) as [data|] eqn:Hnote;
    intros Hobj.
  - simpl. rewrite lookup_insert_eq. intros Hkeys.
    unfold writeDiary. simpl. rewrite lookup_insert_eq, Hkeys.
    rewrite merge_idempotent_one_line_entries by done.
    apply vault_write_twice.
  - set (created := match folderToCreate (path settings) with
                    | Some folder => vault_createFolder folder w
                    | None => w
                    end).
    simpl. rewrite lookup_insert_eq. intros Hkeys.
    unfold writeDiary. simpl. rewrite lookup_insert_eq, Hkeys.
    change (frontMatterOf []) with "".
    rewrite merge_after_create by done.
    apply vault_write_twice.
Qed.

Lemma writeDiary_twice_witness :
  @writeDiary (exampleHost [] noKeys)
    (exampleSettings "fleker" "Movies/2024/Diary" List) ["L1"; "L2"]
    (@writeDiary (exampleHost [] noKeys)
       (exampleSettings "fleker" "Movies/2024/Diary" List) ["L1"; "L2"]
       emptyWorld)
  = @writeDiary (exampleHost [] noKeys)
      (exampleSettings "fleker" "Movies/2024/Diary" List) ["L1"; "L2"]
      emptyWorld.
Proof.
  apply (@writeDiary_twice (exampleHost [] noKeys)
           (exampleSettings "fleker" "Movies/2024/Diary" List)
           ["L1"; "L2"] emptyWorld).
  - repeat constructor.
  - constructor.
  - reflexivity.
Defined.

(** ** The path of the note *)

Lemma removelast_snoc {A} (l : list A) x : removelast (l ++ [x]) = l.
Proof.
  induction l as [|y l IH]; [done|].
  simpl. rewrite IH. by destruct l.
Qed.

Lemma split_snoc sep s :
  exists fields last, split sep s = fields ++ [last].
Proof.
  pose proof (split_nonempty sep s) as Hne.
  destruct (split sep s) as [|x l] using rev_ind; [done|]. eauto.
Qed.

(** X17 -- when the command creates a folder for a note that does not
    exist yet, it is the parent folder of the note: the configured path
    without its last segment.  That folder always lies below another. *)
Theorem folderToCreate_parent path folder :
  folderToCreate path = Some folder ->
  exists name,
    path = folder +:+ "/" +:+ name
    /\ freeOf "/" name /\ ~ freeOf "/" folder.
Proof.
  unfold folderToCreate.
  destruct (split_snoc "/" path) as (fields & name & Hsplit).
  pose proof (join_split_on "/" path) as Hjoin.
  pose proof (split_fields_free "/" path) as Hfree.
  rewrite Hsplit in *. rewrite removelast_snoc.
  case_decide as Hlen; [|done]. intros [= <-]. exists name.
  apply Forall_app in Hfree as [_ Hname].
  split; [|split].
  - rewrite <- Hjoin. apply join_snoc. intros ->. simpl in Hlen. lia.
  - by inversion Hname.
  - destruct fields as [|x [|y fields]]; simpl in Hlen; [lia..|].
    rewrite join_cons by done. rewrite !freeOf_app.
    intros (_ & Hslash & _). by destruct Hslash.
Qed.

Lemma folderToCreate_parent_witness :
  exists name,
    "Movies/2024/Diary" = "Movies/2024" +:+ "/" +:+ name
    /\ freeOf "/" name /\ ~ freeOf "/" "Movies/2024".
Proof.
  exact (folderToCreate_parent "Movies/2024/Diary" "Movies/2024" eq_refl).
Defined.

(** X18 -- no folder is created exactly when the configured path has at
    most two segments, that is at most one slash. *)
Theorem folderToCreate_None_iff path :
  folderToCreate path = None <-> length (split "/" path) <= 2.
Proof.
  unfold folderToCreate.
  destruct (split_snoc "/" path) as (fields & name & ->).
  rewrite removelast_snoc, length_app. simpl.
  case_decide; split; intros; try done; lia.
Qed.

Lemma prefix_app a b : String.prefix a (a +:+ b) = true.
Proof.
  induction a as [|c a IH]; string_norm; [apply prefix_empty|].
  change (String.prefix (String c a) (String c (a +:+ b)))
    with (if ascii_dec c c then String.prefix a (a +:+ b) else false).
  by destruct (ascii_dec c c).
Qed.

Lemma endsWith_app p s : endsWith p (s +:+ p) = true.
Proof. unfold endsWith. rewrite rev_app_s. apply prefix_app. Qed.

(** X19 -- the extension is optional in the configured path: a path
    without [.md] names the same note as that path with [.md] added. *)
Theorem filename_extension_optional `{Host} settings settings' :
  endsWith ".md" (path settings) = false ->
  path settings' = path settings +:+ ".md" ->
  filenameOf settings' = filenameOf settings.
Proof.
  intros Hbare Hext. unfold filenameOf.
  by rewrite Hbare, Hext, endsWith_app.
Qed.

Lemma filename_extension_optional_witness :
  @filenameOf (exampleHost [] noKeys)
    (exampleSettings "fleker" "Letterboxd Diary.md" List)
  = @filenameOf (exampleHost [] noKeys)
      (exampleSettings "fleker" "Letterboxd Diary" List).
Proof.
  exact (@filename_extension_optional (exampleHost [] noKeys)
           (exampleSettings "fleker" "Letterboxd Diary" List)
           (exampleSettings "fleker" "Letterboxd Diary.md" List)
           eq_refl eq_refl).
Defined.

(** ** The file picker's Tab key *)

(** X20 -- when the input box holds the first [k] segments of the
    selected suggestion, Tab extends it to the first [k + 1] segments;
    once the box holds the whole suggestion, Tab leaves it as it is. *)
Theorem tabComplete_step suggestion k :
  truthy suggestion = true ->
  1 <= k <= length (split "/" suggestion) ->
  tabComplete (Some suggestion)
    (join "/" (take k (split "/" suggestion)))
  = join "/" (take (S k) (split "/" suggestion))
  /\ tabComplete (Some suggestion) suggestion = suggestion.
Proof.
  intros Htext Hk.
  assert (forall n, 1 <= n <= length (split "/" suggestion) ->
            tabComplete (Some suggestion)
              (join "/" (take n (split "/" suggestion)))
            = join "/" (take (S n) (split "/" suggestion))) as Hstep.
  { clear k Hk. intros k Hk. unfold tabComplete. rewrite Htext.
    set (segments := split "/" suggestion) in *.
    assert (split "/" (join "/" (take k segments)) = take k segments)
      as ->.
    { apply split_join_on.
      - apply Forall_take, split_fields_free.
      - destruct segments; [simpl in Hk; lia|]. destruct k; [lia|done]. }
    rewrite length_take, Nat.min_l by lia.
    rewrite !lookup_take_lt by lia.
    by rewrite !decide_True by (try split; first [lia | done]). }
  split; [by apply Hstep|].
  pose proof (split_nonempty "/" suggestion) as Hne.
  assert (1 <= length (split "/" suggestion)) as Hlen
    by (destruct (split "/" suggestion); [done | simpl; lia]).
  specialize (Hstep (length (split "/" suggestion)) (conj Hlen (le_n _))).
  rewrite firstn_all, take_ge, join_split_on in Hstep by lia. done.
Qed.

Lemma tabComplete_step_witness :
  tabComplete (Some "Movies/2024/Diary.md") "Movies"
  = join "/" (take 2 (split "/" "Movies/2024/Diary.md")).
Proof.
  refine (proj1 (tabComplete_step "Movies/2024/Diary.md" 1 eq_refl _)).
  vm_compute. lia.
Defined.

(** X21 -- when the input box holds a single segment that is not the
    first segment of the selected suggestion, Tab replaces it by that
    first segment. *)
Theorem tabComplete_first suggestion inputValue first rest :
  truthy suggestion = true ->
  split "/" suggestion = first :: rest ->
  freeOf "/" inputValue -> inputValue <> first ->
  tabComplete (Some suggestion) inputValue = first.
Proof.
  intros Htext Hsegments Hfree Hdiff. unfold tabComplete.
  rewrite Htext, Hsegments, split_free by done. simpl.
  rewrite decide_False by (intros [_ ?]; congruence).
  by destruct (decide (Some first = Some inputValue)).
Qed.

Lemma tabComplete_first_witness :
  tabComplete (Some "Movies/2024/Diary.md") "Mo" = "Movies".
Proof.
  apply (tabComplete_first "Movies/2024/Diary.md" "Mo" "Movies"
           ["2024"; "Diary.md"]); try reflexivity; by vm_compute.
Defined.

(** ** The first versions' merge through one [Set] *)

Lemma elem_of_setAdd set x y : y ∈ setAdd set x <-> y ∈ set \/ y = x.
Proof.
  unfold setAdd. case_decide.
  - split; [tauto|]. intros [?| ->]; done.
  - by rewrite elem_of_app, list_elem_of_singleton.
Qed.

Lemma elem_of_fold_setAdd arr set y :
  y ∈ fold_left setAdd arr set <-> y ∈ set \/ y ∈ arr.
Proof.
  revert set. induction arr as [|x arr IH]; intros set; simpl.
  - split; [tauto|]. intros [?|Hnil]; [done|].
    by apply not_elem_of_nil in Hnil.
  - rewrite IH, elem_of_setAdd, elem_of_cons. tauto.
Qed.

Lemma NoDup_fold_setAdd arr set :
  NoDup set -> NoDup (fold_left setAdd arr set).
Proof.
  revert set. induction arr as [|x arr IH]; intros set Hset; simpl; [done|].
  apply IH. unfold setAdd. case_decide; [done|].
  apply NoDup_app. split; [done|]. split; [|apply NoDup_singleton].
  by intros y Hy ->%list_elem_of_singleton.
Qed.

Lemma fold_setAdd_known arr set :
  (forall x, x ∈ arr -> x ∈ set) -> fold_left setAdd arr set = set.
Proof.
  induction arr as [|x arr IH]; intros Hsub; simpl; [done|].
  unfold setAdd at 2. rewrite decide_True by (apply Hsub; by left).
  apply IH. intros y Hy. apply Hsub. by right.
Qed.

Lemma newEntries_snoc diaryMdArr arr x :
  x ∉ diaryMdArr ->
  newEntries diaryMdArr (arr ++ [x]) = newEntries diaryMdArr arr.
Proof.
  unfold newEntries, diaryContentsSet.
  induction diaryMdArr as [|y rest IH]; intros Hx; [done|].
  apply not_elem_of_cons in Hx as [Hxy Hx].
  rewrite !filter_cons, IH by done.
  destruct (decide (y ∈ arr)) as [Hy|Hy].
  - rewrite !decide_False; [done | |];
      rewrite not_elem_of_list_to_set; intros Hn; apply Hn;
      rewrite ?elem_of_app; tauto.
  - rewrite !decide_True; [done | |];
      rewrite not_elem_of_list_to_set, ?elem_of_app,
        ?list_elem_of_singleton; [done|].
    intros [?| ->]; done.
Qed.

Lemma fold_setAdd_newEntries diaryMdArr arr :
  NoDup diaryMdArr ->
  fold_left setAdd diaryMdArr arr = arr ++ newEntries diaryMdArr arr.
Proof.
  intros Hnew. revert arr.
  induction Hnew as [|x rest Hx Hrest IH]; intros arr; simpl.
  - by rewrite app_nil_r.
  - rewrite IH. unfold setAdd, newEntries at 2, diaryContentsSet.
    rewrite filter_cons. destruct (decide (x ∈ arr)) as [Hin|Hin].
    + by rewrite decide_False
        by (rewrite not_elem_of_list_to_set; tauto).
    + rewrite decide_True by by rewrite not_elem_of_list_to_set.
      rewrite newEntries_snoc by done. by rewrite <- app_assoc.
Qed.

Lemma newSet_NoDup arr : NoDup arr -> newSet arr = arr.
Proof.
  intros Harr. unfold newSet. rewrite fold_setAdd_newEntries by done.
  simpl. unfold newEntries, diaryContentsSet.
  clear Harr. induction arr as [|x arr IH]; [done|].
  rewrite filter_cons_True; [by rewrite IH|].
  rewrite not_elem_of_list_to_set. apply not_elem_of_nil.
Qed.

Lemma firstLines_noLF diaryMdArr data :
  Forall noLF diaryMdArr ->
  Forall noLF (fold_left setAdd diaryMdArr (newSet (split LF data))).
Proof.
  intros Hnew. apply Forall_forall. intros x.
  rewrite elem_of_fold_setAdd. unfold newSet.
  rewrite elem_of_fold_setAdd.
  pose proof (split_lines_noLF data) as Hdata.
  rewrite Forall_forall in Hnew, Hdata.
  intros [[Hx|Hx]|Hx]; [by apply not_elem_of_nil in Hx | auto..].
Qed.

Lemma firstLines_nonempty diaryMdArr data :
  fold_left setAdd diaryMdArr (newSet (split LF data)) <> [].
Proof.
  pose proof (split_nonempty LF data) as Hne.
  destruct (split LF data) as [|x arr] eqn:Hsplit; [done|].
  intros Hnil.
  assert (x ∈ fold_left setAdd diaryMdArr (newSet (x :: arr))) as Hx.
  { rewrite elem_of_fold_setAdd. left. unfold newSet.
    rewrite elem_of_fold_setAdd. right. by left. }
  rewrite Hnil in Hx. by apply not_elem_of_nil in Hx.
Qed.

(** The lines of the note the first merge writes. *)
Lemma firstProcessCallback_lines diaryMdArr data :
  Forall noLF diaryMdArr ->
  split LF (firstProcessCallback diaryMdArr data)
  = fold_left setAdd diaryMdArr (newSet (split LF data)).
Proof.
  intros Hnew. unfold firstProcessCallback.
  apply split_join; [by apply firstLines_noLF | apply firstLines_nonempty].
Qed.

(** X22 -- the first merge writes no line twice: the note it returns
    holds every line of the old note and every one-line entry, each
    once, repeated lines of the old note included. *)
Theorem firstProcessCallback_no_repeats diaryMdArr data :
  Forall noLF diaryMdArr ->
  NoDup (split LF (firstProcessCallback diaryMdArr data))
  /\ forall line,
       line ∈ split LF (firstProcessCallback diaryMdArr data)
       <-> line ∈ split LF data \/ line ∈ diaryMdArr.
Proof.
  intros Hnew. rewrite firstProcessCallback_lines by done. split.
  - apply NoDup_fold_setAdd. unfold newSet.
    apply NoDup_fold_setAdd, NoDup_nil_2.
  - intros line. rewrite elem_of_fold_setAdd. unfold newSet.
    rewrite elem_of_fold_setAdd, elem_of_nil. tauto.
Qed.

Lemma firstProcessCallback_no_repeats_witness :
  NoDup (split LF (firstProcessCallback ["L1"; "L1"]
                     ("L0" +:+ nl +:+ "" +:+ nl +:+ ""))).
Proof.
  refine (proj1 (firstProcessCallback_no_repeats ["L1"; "L1"]
                   ("L0" +:+ nl +:+ "" +:+ nl +:+ "") _)).
  repeat constructor.
Defined.

(** X23 -- the first merge is idempotent on one-line entries: merging
    the same entries into the note it wrote gives that note again. *)
Theorem firstProcessCallback_idempotent diaryMdArr data :
  Forall noLF diaryMdArr ->
  firstProcessCallback diaryMdArr (firstProcessCallback diaryMdArr data)
  = firstProcessCallback diaryMdArr data.
Proof.
  intros Hnew. unfold firstProcessCallback at 1.
  rewrite firstProcessCallback_lines by done.
  set (lines := fold_left setAdd diaryMdArr (newSet (split LF data))).
  assert (NoDup lines) as Hnodup.
  { apply NoDup_fold_setAdd. unfold newSet.
    apply NoDup_fold_setAdd, NoDup_nil_2. }
  rewrite newSet_NoDup by done. rewrite fold_setAdd_known; [done|].
  intros x Hx. apply elem_of_fold_setAdd. by right.
Qed.

Lemma firstProcessCallback_idempotent_witness :
  firstProcessCallback ["L0"; "L1"]
    (firstProcessCallback ["L0"; "L1"] "L0")
  = firstProcessCallback ["L0"; "L1"] "L0".
Proof.
  apply (firstProcessCallback_idempotent ["L0"; "L1"] "L0").
  repeat constructor.
Defined.

(** X24 -- on a note without repeated lines and entries without
    repetition, the first merge and the current merge (ascending, no
    front matter) write the same note. *)
Theorem firstProcessCallback_agrees diaryMdArr data :
  NoDup (split LF data) -> NoDup diaryMdArr ->
  firstProcessCallback diaryMdArr data
  = processCallback "" "Old" diaryMdArr data.
Proof.
  intros Hdata Hnew. unfold firstProcessCallback.
  rewrite newSet_NoDup, fold_setAdd_newEntries by done.
  rewrite processCallback_eq. unfold finalEntries.
  by rewrite decide_True.
Qed.

Lemma firstProcessCallback_agrees_witness :
  firstProcessCallback ["L0"; "L1"] "L0"
  = processCallback "" "Old" ["L0"; "L1"] "L0".
Proof.
  apply (firstProcessCallback_agrees ["L0"; "L1"] "L0"); compute_done.
Defined.

(** ** Loading the settings *)

(** X25 -- as long as no non-empty username has been saved (a fresh
    installation included), the command run on the loaded settings
    throws at once and leaves the world as it was. *)
Theorem sync_without_saved_username `{Host} dailyNoteFormat loaded w :
  loaded ≫= savedUsername = None \/ loaded ≫= savedUsername = Some "" ->
  sync (loadSettings dailyNoteFormat loaded) w
  = (Threw "Cannot get data for blank username", w).
Proof.
  intros Hname. unfold sync.
  assert (username (loadSettings dailyNoteFormat loaded) = "") as ->;
    [|done].
  destruct loaded as [saved|]; [|done]. simpl in *.
  by destruct Hname as [-> | ->].
Qed.

Lemma sync_without_saved_username_witness :
  @sync (exampleHost [] noKeys) (loadSettings None None) emptyWorld
  = (Threw "Cannot get data for blank username", emptyWorld).
Proof.
  exact (@sync_without_saved_username (exampleHost [] noKeys) None None
           emptyWorld (or_introl eq_refl)).
Defined.

(** ** Merging in two runs *)

Lemma newEntries_ext diaryMdArr arr arr' :
  (forall x, x ∈ diaryMdArr -> (x ∈ arr <-> x ∈ arr')) ->
  newEntries diaryMdArr arr = newEntries diaryMdArr arr'.
Proof.
  unfold newEntries, diaryContentsSet.
  induction diaryMdArr as [|y rest IH]; intros Hsame; [done|].
  rewrite !filter_cons, IH by (intros x Hx; apply Hsame; by right).
  pose proof (Hsame y ltac:(by left)) as Hy.
  destruct (decide (y ∈ arr)) as [Hin|Hin].
  - rewrite !decide_False; [done | |];
      rewrite not_elem_of_list_to_set; tauto.
  - rewrite !decide_True; [done | |];
      rewrite not_elem_of_list_to_set; tauto.
Qed.

Lemma newEntries_app new1 new2 arr :
  newEntries (new1 ++ new2) arr = newEntries new1 arr ++ newEntries new2 arr.
Proof. apply filter_app. Qed.

(** X26 -- two runs against one: on a note without front-matter keys,
    merging one-line entries [first] and then entries [second], none of
    which is among [first], writes what one merge of both writes, the
    later entries after the earlier ones under ['Old'] and before them
    under any other sort value. *)
Theorem merge_in_two_runs sort first second data :
  Forall noLF first ->
  (forall x, x ∈ second -> x ∉ first) ->
  processCallback "" sort second (processCallback "" sort first data)
  = processCallback "" sort
      (if decide (sort = "Old") then first ++ second else second ++ first)
      data.
Proof.
  intros Hfirst Hdisjoint.
  rewrite (processCallback_eq "" sort first data), !app_nil_l.
  change (diaryContentsArr "" data) with (split LF data).
  set (arr := split LF data).
  assert (finalEntries sort first arr <> []) as Hne.
  { pose proof (split_nonempty LF data) as Harr. fold arr in Harr.
    unfold finalEntries. case_decide; destruct arr; try done.
    by destruct (newEntries first (s :: arr)). }
  rewrite !processCallback_eq, !app_nil_l.
  change (diaryContentsArr "" data) with arr.
  change (diaryContentsArr "" (join nl (finalEntries sort first arr)))
    with (split LF (join nl (finalEntries sort first arr))).
  rewrite split_join;
    [|apply finalEntries_noLF; [done | apply split_lines_noLF] | done].
  f_equal.
  assert (newEntries second (finalEntries sort first arr)
          = newEntries second arr) as Hsecond.
  { apply newEntries_ext. intros x Hx. unfold finalEntries.
    case_decide; rewrite elem_of_app, elem_of_newEntries;
      specialize (Hdisjoint x Hx); tauto. }
  unfold finalEntries at 1 3. rewrite Hsecond.
  unfold finalEntries.
  case_decide; rewrite newEntries_app, ?app_assoc; done.
Qed.

Lemma merge_in_two_runs_witness :
  processCallback "" "New" ["L2"] (processCallback "" "New" ["L1"] "L0")
  = processCallback "" "New"
      (if decide ("New" = "Old") then ["L1"] ++ ["L2"] else ["L2"] ++ ["L1"])
      "L0".
Proof.
  apply (merge_in_two_runs "New" ["L1"] ["L2"] "L0").
  - repeat constructor.
  - intros x Hx. apply list_elem_of_singleton in Hx. subst.
    compute_done.
Defined.
